(** * JSONDatabase: a dict mirrored to a JSON file, guarded by a lock

    A shallow embedding of [JSONDatabase.py].  The class keeps three
    attributes ([location], [store], [lock]) and talks to three parts of its
    environment: the object heap (the [store] attribute is a reference, and
    the default argument [{}] is one object shared by every call), the file
    system ([open], [path.exists]) and the [json] module ([json.dump],
    [json.load]).  Each of them is modelled below, then the methods are
    written in a small state-and-exception monad, in the order of the source. *)

From Stdlib Require Import ZArith NArith Ascii String List Lia.
From Stdlib Require Import DecimalString DecimalFacts DecimalPos DecimalN.
From stdpp Require Import base option list gmap strings.

Local Open Scope string_scope.

(** ** Python values *)

Module Py.

(** The values a document is made of.  [VDict] keeps the insertion order of a
    Python dict as an association list; keys are [str], as [json.load]
    produces them.  Text is a [string] of code points below 256.  [VObject n]
    stands for an object of any type the [json] module has no encoding for
    (a set, a bytes object, an instance of a user class); [float] is not
    modelled. *)
#[warnings="-register-all"] Inductive value : Type :=
  | VNone : value
  | VBool (b : bool) : value
  | VInt (z : Z) : value
  | VStr (s : string) : value
  | VList (l : list value) : value
  | VDict (d : list (string * value)) : value
  | VObject (n : nat) : value.

Definition dict : Type := list (string * value).

(** [d[k]] *)
Fixpoint dict_get (k : string) (d : dict) : option value :=
  match d with
  | [] => None
  | (k', v) :: d' => if String.eqb k k' then Some v else dict_get k d'
  end.

(** [d[k] = v]: an existing key keeps its position, a new one goes last. *)
Fixpoint dict_set (k : string) (v : value) (d : dict) : dict :=
  match d with
  | [] => [(k, v)]
  | (k', v') :: d' =>
      if String.eqb k k' then (k, v) :: d' else (k', v') :: dict_set k v d'
  end.

(** [del d[k]]; [None] stands for [KeyError]. *)
Fixpoint dict_del (k : string) (d : dict) : option dict :=
  match d with
  | [] => None
  | (k', v') :: d' =>
      if String.eqb k k' then Some d'
      else match dict_del k d' with
           | Some d'' => Some ((k', v') :: d'')
           | None => None
           end
  end.

Definition keys (d : dict) : list string := map fst d.

(** A Python dict holds each key once; this is the representation invariant
    of [VDict], at every depth. *)
Fixpoint wf (v : value) : Prop :=
  match v with
  | VList l => (fix all (l : list value) : Prop :=
                  match l with [] => True | x :: xs => wf x /\ all xs end) l
  | VDict d => NoDup (map fst d) /\
               (fix all (d : dict) : Prop :=
                  match d with [] => True | (_, x) :: xs => wf x /\ all xs end) d
  | _ => True
  end.

(** The values of the JSON grammar: no [VObject] anywhere. *)
Fixpoint is_json (v : value) : bool :=
  match v with
  | VObject _ => false
  | VList l => (fix all (l : list value) : bool :=
                  match l with [] => true | x :: xs => is_json x && all xs end) l
  | VDict d => (fix all (d : dict) : bool :=
                  match d with [] => true | (_, x) :: xs => is_json x && all xs end) d
  | _ => true
  end.

End Py.

(** ** The [json] module

    [json.dump] and [json.load] with their default arguments, on the values
    of [Py.value]: separators [", "] and [": "], [ensure_ascii] escapes, no
    indentation; strict decoding.  The interpreter's limits (recursion depth,
    number of digits of an integer) are left out. *)

Module Json.
Import Py.

Local Open Scope char_scope.

(** *** Encoding *)

Definition quote : ascii := ascii_of_N 34.
Definition backslash : ascii := ascii_of_N 92.

Definition hex_digit (n : N) : ascii :=
  if (n <? 10)%N then ascii_of_N (48 + n) else ascii_of_N (87 + n).

Definition esc2 (c : ascii) : string := String backslash (String c EmptyString).

(** [py_encode_basestring_ascii], one code point at a time: the two-letter
    escapes, the printable ASCII range as it is, and the six-letter escape
    with four hexadecimal digits for the rest. *)
Definition escape_char (c : ascii) : string :=
  let n := N_of_ascii c in
  if (n =? 34)%N then esc2 quote
  else if (n =? 92)%N then esc2 backslash
  else if (n =? 10)%N then esc2 "n"
  else if (n =? 13)%N then esc2 "r"
  else if (n =? 9)%N then esc2 "t"
  else if (n =? 8)%N then esc2 "b"
  else if (n =? 12)%N then esc2 "f"
  else if ((32 <=? n) && (n <=? 126))%N then String c EmptyString
  else String backslash (String "u" (String "0" (String "0"
         (String (hex_digit (n / 16)) (String (hex_digit (n mod 16)) EmptyString))))).

Fixpoint escape (s : string) : string :=
  match s with
  | EmptyString => EmptyString
  | String c r => (escape_char c ++ escape r)%string
  end.

Definition encode_basestring_ascii (s : string) : string :=
  String quote (escape s ++ String quote EmptyString)%string.

(** [int.__repr__] *)
Definition int_repr (z : Z) : string :=
  match z with
  | Z0 => "0"%string
  | Zpos p => NilEmpty.string_of_uint (Pos.to_uint p)
  | Zneg p => String "-" (NilEmpty.string_of_uint (Pos.to_uint p))
  end.

(** What the generator [_iterencode] yields: a piece of text, or the
    [TypeError] of [_default] on an object it cannot encode, which ends the
    iteration. *)
Inductive chunk : Type :=
  | Chunk (s : string)
  | NotSerializable.

Fixpoint iterencode (v : value) : list chunk :=
  match v with
  | VNone => [Chunk "null"]
  | VBool true => [Chunk "true"]
  | VBool false => [Chunk "false"]
  | VInt z => [Chunk (int_repr z)]
  | VStr s => [Chunk (encode_basestring_ascii s)]
  | VList [] => [Chunk "[]"]
  | VList (x :: xs) =>
      Chunk "[" :: iterencode x ++
      (fix items (l : list value) : list chunk :=
         match l with
         | [] => [Chunk "]"]
         | y :: ys => Chunk ", " :: iterencode y ++ items ys
         end) xs
  | VDict [] => [Chunk "{}"]
  | VDict ((k, x) :: kxs) =>
      Chunk "{" :: Chunk (encode_basestring_ascii k) :: Chunk ": " :: iterencode x ++
      (fix members (d : list (string * value)) : list chunk :=
         match d with
         | [] => [Chunk "}"]
         | (k', y) :: d' =>
             Chunk ", " :: Chunk (encode_basestring_ascii k') :: Chunk ": " ::
             iterencode y ++ members d'
         end) kxs
  | VObject _ => [NotSerializable]
  end.

(** [for chunk in iterable: fp.write(chunk)]: the text written to [fp], and
    whether the loop ran to its end. *)
Fixpoint write_chunks (cs : list chunk) : string * bool :=
  match cs with
  | [] => (EmptyString, true)
  | Chunk s :: cs' => let '(t, ok) := write_chunks cs' in ((s ++ t)%string, ok)
  | NotSerializable :: _ => (EmptyString, false)
  end.

(** [json.dump(obj, fp)] on an empty file *)
Definition dump (v : value) : string * bool := write_chunks (iterencode v).

(** [json.dumps(obj)]; [None] stands for [TypeError]. *)
Definition dumps (v : value) : option string :=
  match dump v with
  | (s, true) => Some s
  | (_, false) => None
  end.

(** *** Decoding *)

Definition is_ws (c : ascii) : bool :=
  let n := N_of_ascii c in ((n =? 32) || (n =? 9) || (n =? 10) || (n =? 13))%N.

Fixpoint skip_ws (s : string) : string :=
  match s with
  | String c r => if is_ws c then skip_ws r else s
  | EmptyString => s
  end.

Definition is_digit (c : ascii) : bool :=
  let n := N_of_ascii c in ((48 <=? n) && (n <=? 57))%N.

Definition hex_value (c : ascii) : option N :=
  let n := N_of_ascii c in
  if ((48 <=? n) && (n <=? 57))%N then Some (n - 48)%N
  else if ((97 <=? n) && (n <=? 102))%N then Some (n - 87)%N
  else if ((65 <=? n) && (n <=? 70))%N then Some (n - 55)%N
  else None.

(** The letter after a backslash, [u] apart. *)
Definition unescape (e : ascii) : option ascii :=
  let n := N_of_ascii e in
  if (n =? 34)%N then Some quote
  else if (n =? 92)%N then Some backslash
  else if (n =? 47)%N then Some "/"
  else if (n =? 98)%N then Some (ascii_of_N 8)
  else if (n =? 102)%N then Some (ascii_of_N 12)
  else if (n =? 110)%N then Some (ascii_of_N 10)
  else if (n =? 114)%N then Some (ascii_of_N 13)
  else if (n =? 116)%N then Some (ascii_of_N 9)
  else None.

Definition cons_str (c : ascii) (r : option (string * string)) : option (string * string) :=
  match r with
  | Some (t, rest) => Some (String c t, rest)
  | None => None
  end.

(** [scanstring], from the character after the opening quote: the text and
    the input after the closing quote.  A code point of 256 or more, which a
    [string] here cannot hold, is refused. *)
Fixpoint scanstring (s : string) : option (string * string) :=
  match s with
  | EmptyString => None
  | String c r =>
      if Ascii.eqb c quote then Some (EmptyString, r)
      else if Ascii.eqb c backslash then
        match r with
        | EmptyString => None
        | String e r1 =>
            if Ascii.eqb e "u" then
              match r1 with
              | String h1 (String h2 (String h3 (String h4 r2))) =>
                  match hex_value h1, hex_value h2, hex_value h3, hex_value h4 with
                  | Some a, Some b, Some c', Some d =>
                      let n := (((a * 16 + b) * 16 + c') * 16 + d)%N in
                      if (n <? 256)%N then cons_str (ascii_of_N n) (scanstring r2)
                      else None
                  | _, _, _, _ => None
                  end
              | _ => None
              end
            else
              match unescape e with
              | Some c' => cons_str c' (scanstring r1)
              | None => None
              end
        end
      else if (N_of_ascii c <? 32)%N then None
      else cons_str c (scanstring r)
  end.

Fixpoint span_digits (s : string) : string * string :=
  match s with
  | String c r =>
      if is_digit c then let '(ds, rest) := span_digits r in (String c ds, rest)
      else (EmptyString, s)
  | EmptyString => (EmptyString, EmptyString)
  end.

Definition starts_with_digit (s : string) : bool :=
  match s with
  | String c _ => is_digit c
  | EmptyString => false
  end.

(** The two optional groups of [NUMBER_RE], a fraction and an exponent. *)
Definition frac_follows (s : string) : bool :=
  match s with
  | String c r => Ascii.eqb c "." && starts_with_digit r
  | EmptyString => false
  end.

Definition exp_follows (s : string) : bool :=
  match s with
  | String c r =>
      (Ascii.eqb c "e" || Ascii.eqb c "E") &&
      (starts_with_digit r ||
       match r with
       | String sg r' => (Ascii.eqb sg "+" || Ascii.eqb sg "-") && starts_with_digit r'
       | EmptyString => false
       end)
  | EmptyString => false
  end.

(** The integer group of [NUMBER_RE] without its sign: a lone zero, or a
    run of digits that starts with a digit from one to nine. *)
Definition scan_uint (s : string) : option (N * string) :=
  match s with
  | String c r =>
      if Ascii.eqb c "0" then Some (0%N, r)
      else if is_digit c then
        let '(ds, rest) := span_digits s in
        match NilEmpty.uint_of_string ds with
        | Some u => Some (N.of_uint u, rest)
        | None => None
        end
      else None
  | EmptyString => None
  end.

(** [match_number]: an integer literal gives an [int]; a literal with a
    fraction or an exponent is a [float], which is outside the values
    modelled, and is refused. *)
Definition scan_number (s : string) : option (Z * string) :=
  let '(neg, s1) :=
    match s with
    | String c r => if Ascii.eqb c "-" then (true, r) else (false, s)
    | EmptyString => (false, s)
    end in
  match scan_uint s1 with
  | Some (n, rest) =>
      if frac_follows rest || exp_follows rest then None
      else Some (if neg then (- Z.of_N n)%Z else Z.of_N n, rest)
  | None => None
  end.

Fixpoint strip_prefix (p s : string) : option string :=
  match p with
  | EmptyString => Some s
  | String a p' =>
      match s with
      | String b s' => if Ascii.eqb a b then strip_prefix p' s' else None
      | EmptyString => None
      end
  end.

(** [dict(pairs)]: a key met again keeps its place and takes the later value. *)
Definition dict_of_pairs (l : list (string * value)) : dict :=
  fold_left (fun d kv => dict_set (fst kv) (snd kv) d) l [].

(** [scan_once], with [JSONArray] and [JSONObject] from the character after
    the opening bracket.  The recursion is on [fuel]; [loads] supplies enough
    of it for its input. *)
Fixpoint scan_once (fuel : nat) (s : string) : option (value * string) :=
  match fuel with
  | O => None
  | S f =>
      match s with
      | EmptyString => None
      | String c r =>
          if Ascii.eqb c quote then
            match scanstring r with
            | Some (t, r') => Some (VStr t, r')
            | None => None
            end
          else if Ascii.eqb c "{" then
            match skip_ws r with
            | String c1 r1 =>
                if Ascii.eqb c1 "}" then Some (VDict [], r1)
                else match object_items f (skip_ws r) with
                     | Some (ps, r') => Some (VDict (dict_of_pairs ps), r')
                     | None => None
                     end
            | EmptyString => None
            end
          else if Ascii.eqb c "[" then
            match skip_ws r with
            | String c1 r1 =>
                if Ascii.eqb c1 "]" then Some (VList [], r1)
                else match array_items f (skip_ws r) with
                     | Some (vs, r') => Some (VList vs, r')
                     | None => None
                     end
            | EmptyString => None
            end
          else if Ascii.eqb c "n" then
            match strip_prefix "ull" r with
            | Some r' => Some (VNone, r')
            | None => None
            end
          else if Ascii.eqb c "t" then
            match strip_prefix "rue" r with
            | Some r' => Some (VBool true, r')
            | None => None
            end
          else if Ascii.eqb c "f" then
            match strip_prefix "alse" r with
            | Some r' => Some (VBool false, r')
            | None => None
            end
          else
            match scan_number s with
            | Some (z, r') => Some (VInt z, r')
            | None => None
            end
      end
  end
with array_items (fuel : nat) (s : string) : option (list value * string) :=
  match fuel with
  | O => None
  | S f =>
      match scan_once f s with
      | Some (v, r) =>
          match skip_ws r with
          | String c r1 =>
              if Ascii.eqb c "]" then Some ([v], r1)
              else if Ascii.eqb c "," then
                match array_items f (skip_ws r1) with
                | Some (vs, r2) => Some (v :: vs, r2)
                | None => None
                end
              else None
          | EmptyString => None
          end
      | None => None
      end
  end
with object_items (fuel : nat) (s : string) : option (list (string * value) * string) :=
  match fuel with
  | O => None
  | S f =>
      match s with
      | String q r =>
          if Ascii.eqb q quote then
            match scanstring r with
            | Some (k, r1) =>
                match skip_ws r1 with
                | String c r2 =>
                    if Ascii.eqb c ":" then
                      match scan_once f (skip_ws r2) with
                      | Some (v, r3) =>
                          match skip_ws r3 with
                          | String c' r4 =>
                              if Ascii.eqb c' "}" then Some ([(k, v)], r4)
                              else if Ascii.eqb c' "," then
                                match object_items f (skip_ws r4) with
                                | Some (ps, r5) => Some ((k, v) :: ps, r5)
                                | None => None
                                end
                              else None
                          | EmptyString => None
                          end
                      | None => None
                      end
                    else None
                | EmptyString => None
                end
            | None => None
            end
          else None
      | EmptyString => None
      end
  end.

(** [json.loads(s)]; [None] stands for [JSONDecodeError]. *)
Definition loads (s : string) : option value :=
  match scan_once (2 * String.length s + 2) (skip_ws s) with
  | Some (v, r) =>
      match skip_ws r with
      | EmptyString => Some v
      | String _ _ => None
      end
  | None => None
  end.

(** *** The text of a document of the JSON grammar

    On a value without [VObject] the chunks of [iterencode] join to
    [encode]. *)

Fixpoint items_text (l : list string) : string :=
  match l with
  | [] => "]"%string
  | s :: l' => (", " ++ s ++ items_text l')%string
  end.

Fixpoint members_text (l : list (string * string)) : string :=
  match l with
  | [] => "}"%string
  | (k, s) :: l' => (", " ++ encode_basestring_ascii k ++ ": " ++ s ++ members_text l')%string
  end.

Fixpoint encode (v : value) : string :=
  match v with
  | VNone => "null"%string
  | VBool true => "true"%string
  | VBool false => "false"%string
  | VInt z => int_repr z
  | VStr s => encode_basestring_ascii s
  | VList [] => "[]"%string
  | VList (x :: xs) => ("[" ++ encode x ++ items_text (map encode xs))%string
  | VDict [] => "{}"%string
  | VDict ((k, x) :: kxs) =>
      ("{" ++ encode_basestring_ascii k ++ ": " ++ encode x ++
       members_text (map (fun kv => (fst kv, encode (snd kv))) kxs))%string
  | VObject _ => EmptyString
  end.

(** The characters a value can start with, and those that can follow one. *)
Definition is_start (c : ascii) : bool :=
  is_digit c || Ascii.eqb c "-" || Ascii.eqb c quote || Ascii.eqb c "{" ||
  Ascii.eqb c "[" || Ascii.eqb c "n" || Ascii.eqb c "t" || Ascii.eqb c "f".

Definition delim (s : string) : bool :=
  match s with
  | EmptyString => true
  | String c _ => Ascii.eqb c "," || Ascii.eqb c "]" || Ascii.eqb c "}"
  end.

(** [scan_once] reads back [v] from the front of its text, given fuel for
    twice the length of the text and a delimiter (or nothing) after it. *)
Definition decodes (v : value) : Prop :=
  forall (f : nat) (rest : string),
    (2 * String.length (encode v) <= f)%nat -> delim rest = true ->
    scan_once f (encode v ++ rest) = Some (v, rest).

End Json.

(** ** The environment: heap, file system, lock, exceptions *)

Import Py.

(** References to objects.  [self.store] is a reference, and so is the
    [default] argument of [__init__]. *)
Definition loc : Type := nat.

Inductive mode : Type := R | W.

(** What a run does to the lock and to files, oldest first. *)
Inductive event : Type :=
  | Acquire
  | Release
  | Open (path : string) (m : mode)
  | Close (path : string).

(** [files] maps each existing path to its text; [open] raises
    [PermissionError] on the paths in [denied]. *)
Record world : Type := World {
  heap : gmap loc value;
  files : gmap string string;
  denied : gset string;
  trace : list event
}.

Inductive exn : Type :=
  | KeyError (key : string)
  | TypeError
  | FileNotFoundError
  | PermissionError
  | JSONDecodeError
  | RuntimeError
  | SystemError
  | Exception (n : nat).

(** The attributes of an instance.  [lock] is [true] while the
    [threading.Lock] is held. *)
Record JSONDatabase : Type := Self {
  location : string;
  store : loc;
  lock : bool
}.

(** How a call ends: it returns, it raises, or it waits for ever on a lock
    that nobody is going to release. *)
Inductive outcome (A : Type) : Type :=
  | Return (a : A) (self : JSONDatabase) (w : world)
  | Raise (e : exn) (self : JSONDatabase) (w : world)
  | Blocked (self : JSONDatabase) (w : world).
Arguments Return {A} a self w.
Arguments Raise {A} e self w.
Arguments Blocked {A} self w.

Definition M (A : Type) : Type := JSONDatabase -> world -> outcome A.

Definition ret {A} (a : A) : M A := fun self w => Return a self w.

Definition bind {A B} (m : M A) (k : A -> M B) : M B :=
  fun self w =>
    match m self w with
    | Return a self' w' => k a self' w'
    | Raise e self' w' => Raise e self' w'
    | Blocked self' w' => Blocked self' w'
    end.

Definition raise {A} (e : exn) : M A := fun self w => Raise e self w.

#[global] Instance M_ret : MRet M := @ret.
#[global] Instance M_bind : MBind M := fun A B k m => bind m k.

Definition self_of {A} (o : outcome A) : JSONDatabase :=
  match o with
  | Return _ self _ | Raise _ self _ | Blocked self _ => self
  end.

(** The value returned, if the call returned. *)
Definition result {A} (o : outcome A) : option A :=
  match o with
  | Return a _ _ => Some a
  | Raise _ _ _ | Blocked _ _ => None
  end.

Definition world_of {A} (o : outcome A) : world :=
  match o with
  | Return _ _ w | Raise _ _ w | Blocked _ w => w
  end.

Definition log (e : event) (w : world) : world :=
  World (heap w) (files w) (denied w) (trace w ++ [e]).

Definition emit (e : event) : M unit := fun self w => Return tt self (log e w).

(** *** Attributes and objects *)

Definition get_location : M string := fun self w => Return (location self) self w.
Definition get_store : M loc := fun self w => Return (store self) self w.

(** [self.store = l] *)
Definition set_store (l : loc) : M unit :=
  fun self w => Return tt (Self (location self) l (lock self)) w.

(** The object behind a reference; a reference to nothing cannot arise in
    Python, and is answered with [SystemError]. *)
Definition deref (l : loc) : M value :=
  fun self w =>
    match heap w !! l with
    | Some v => Return v self w
    | None => Raise SystemError self w
    end.

(** In-place update of the object at [l]. *)
Definition assign (l : loc) (v : value) : M unit :=
  fun self w => Return tt self (World (<[l := v]> (heap w)) (files w) (denied w) (trace w)).

(** A new object. *)
Definition alloc (v : value) : M loc :=
  fun self w =>
    let l := fresh (dom (heap w)) in
    Return l self (World (<[l := v]> (heap w)) (files w) (denied w) (trace w)).

(** *** [threading.Lock] *)

(** [Lock.acquire()]: blocks while the lock is held. *)
Definition acquire : M unit :=
  fun self w =>
    if lock self then Blocked self w
    else Return tt (Self (location self) (store self) true) (log Acquire w).

(** [Lock.release()]: [RuntimeError] on a lock that is not held. *)
Definition release : M unit :=
  fun self w =>
    if lock self then Return tt (Self (location self) (store self) false) (log Release w)
    else Raise RuntimeError self w.

(** *** The [with] statement

    [with cm: body], for a context manager whose [__exit__] returns [None]
    (the lock, a file, and [JSONDatabase] itself): [__exit__] runs on both
    ways out of the body, and an exception of the body is raised again after
    it, unless [__exit__] raised one of its own. *)
Definition with_ {A} (enter : M unit) (exit_ : option exn -> M unit) (body : M A) : M A :=
  fun self w =>
    match enter self w with
    | Return _ self1 w1 =>
        match body self1 w1 with
        | Return a self2 w2 => (exit_ None ;; ret a) self2 w2
        | Raise e self2 w2 => (exit_ (Some e) ;; raise e) self2 w2
        | Blocked self2 w2 => Blocked self2 w2
        end
    | Raise e self1 w1 => Raise e self1 w1
    | Blocked self1 w1 => Blocked self1 w1
    end.

(** [with self.lock: body] *)
Definition with_lock {A} (body : M A) : M A :=
  with_ acquire (fun _ => release) body.

(** *** Files *)

(** [path.exists(p)] *)
Definition path_exists (p : string) (w : world) : bool :=
  bool_decide (is_Some (files w !! p)).

(** [open(p, 'w')]: creates the file or empties it. *)
Definition open_w (p : string) : M unit :=
  fun self w =>
    if bool_decide (p ∈ denied w) then Raise PermissionError self w
    else Return tt self (log (Open p W) (World (heap w) (<[p := EmptyString]> (files w)) (denied w) (trace w))).

(** [open(p, 'r')] *)
Definition open_r (p : string) : M unit :=
  fun self w =>
    if bool_decide (p ∈ denied w) then Raise PermissionError self w
    else match files w !! p with
         | Some _ => Return tt self (log (Open p R) w)
         | None => Raise FileNotFoundError self w
         end.

Definition close (p : string) : M unit := emit (Close p).

(** [f.write(s)] on the file opened at [p] *)
Definition fwrite (p : string) (s : string) : M unit :=
  fun self w =>
    let old := default EmptyString (files w !! p) in
    Return tt self (World (heap w) (<[p := (old ++ s)%string]> (files w)) (denied w) (trace w)).

(** [f.read()] *)
Definition fread (p : string) : M string :=
  fun self w => Return (default EmptyString (files w !! p)) self w.

(** [json.dump(obj, f)]: the chunks are written as they come, so that a
    [TypeError] leaves the text before it in the file. *)
Definition json_dump (v : value) (p : string) : M unit :=
  let '(s, ok) := Json.dump v in
  fwrite p s ;; if ok then ret tt else raise TypeError.

(** [json.load(f)]: the decoded document is a new object. *)
Definition json_load (p : string) : M loc :=
  s ← fread p;
  match Json.loads s with
  | Some v => alloc v
  | None => raise JSONDecodeError
  end.

(** ** The class [JSONDatabase] *)

(** The object that the default [{}] of [__init__]'s parameter [default] is
    evaluated to, once, when the class body runs; [module_loaded] is the
    state of a program that has just imported the module. *)
Definition default_store : loc := 0%nat.

Definition module_loaded (fs : gmap string string) (dn : gset string) : world :=
  World {[ default_store := VDict [] ]} fs dn [].

(** [dump] *)
Definition dump : M unit :=
  with_lock (
    p ← get_location;
    with_ (open_w p) (fun _ => close p) (
      l ← get_store;
      v ← deref l;
      json_dump v p)).

(** [load] *)
Definition load : M unit :=
  with_lock (
    p ← get_location;
    with_ (open_r p) (fun _ => close p) (
      l ← json_load p;
      set_store l)).

(** The value of the parameter [default]; [None] is a call that leaves the
    argument out. *)
Definition default_arg (default : option loc) : loc :=
  match default with
  | Some l => l
  | None => default_store
  end.

(** [__init__] *)
Definition __init__ (location : string) (default : option loc) (overwrite : bool)
    (w : world) : outcome unit :=
  let self := Self location (default_arg default) false in
  if overwrite || negb (path_exists location w) then dump self w
  else load self w.

(** [overwrite] *)
Definition overwrite (store : loc) : M unit :=
  set_store store ;; dump.

(** [__enter__] *)
Definition __enter__ : M unit := acquire.

(** [__exit__]; [exc] stands for the three arguments [type], [value] and
    [traceback], [None] when the block ended without an exception. *)
Definition __exit__ (exc : option exn) : M unit :=
  release ;; dump.

(** [with self: body] *)
Definition with_self {A} (body : M A) : M A :=
  with_ __enter__ __exit__ body.

(** Subscripting an object with a [str]: only a dict takes one. *)
Definition as_dict (v : value) : M dict :=
  match v with
  | VDict d => ret d
  | _ => raise TypeError
  end.

(** [__getitem__] *)
Definition __getitem__ (key : string) : M value :=
  l ← get_store;
  v ← deref l;
  d ← as_dict v;
  match dict_get key d with
  | Some x => ret x
  | None => raise (KeyError key)
  end.

(** [__setitem__] *)
Definition __setitem__ (key : string) (val : value) : M unit :=
  l ← get_store;
  v ← deref l;
  d ← as_dict v;
  assign l (VDict (dict_set key val d)).

(** [__delitem__] *)
Definition __delitem__ (key : string) : M unit :=
  l ← get_store;
  v ← deref l;
  d ← as_dict v;
  match dict_del key d with
  | Some d' => assign l (VDict d')
  | None => raise (KeyError key)
  end.

(** [__len__] *)
Definition __len__ : M nat :=
  l ← get_store;
  v ← deref l;
  match v with
  | VDict d => ret (length d)
  | VList xs => ret (length xs)
  | VStr s => ret (String.length s)
  | _ => raise TypeError
  end.

(** [__iter__]: the iterator of the store, as the list of what it yields
    while the store is left alone; a dict yields its keys in insertion
    order.  [VObject] is taken without the container protocol, as in
    [__len__]. *)
Definition __iter__ : M (list value) :=
  l ← get_store;
  v ← deref l;
  match v with
  | VDict d => ret (map (fun kv => VStr (fst kv)) d)
  | VList xs => ret xs
  | VStr s => ret (map (fun c => VStr (String c EmptyString)) (list_ascii_of_string s))
  | _ => raise TypeError
  end.

(** ** The script at the end of the module

    The state of the program when [__main__] has built its arguments: the
    module is loaded, no file exists, and the dict [{'list': []}] is the
    object at [default_dict]. *)
Module Main.
Definition path : string := "harvester.db.json".
Definition default_dict : loc := 1%nat.

Definition start : world :=
  World (<[default_dict := VDict [("list", VList [])]]> {[ default_store := VDict [] ]})
        ∅ ∅ [].

(** [db = JSONDatabase('harvester.db.json', {'list': []}, True)] *)
Definition db : JSONDatabase := Self path default_dict false.
Definition built : world := world_of (__init__ path (Some default_dict) true start).

(** [db['list'].append(42)]: with lists as values, the dict gets the
    longer list under the key. *)
Definition append_42 : M unit :=
  l ← __getitem__ "list";
  match l with
  | VList xs => __setitem__ "list" (VList (xs ++ [VInt 42]))
  | _ => raise TypeError
  end.

(** A body that raises after it has changed the document. *)
Definition append_then_raise : M unit :=
  append_42 ;; raise (Exception 0).

(** The rest of the script, from the [with] block on; [overwrite({})] gets a
    new empty dict. *)
Definition script : M unit :=
  with_self append_42 ;;
  __setitem__ "dict" (VDict [("answer", VInt 42)]) ;;
  dump ;;
  empty ← alloc (VDict []);
  overwrite empty.

(** [json.load(open('harvester.db.json', 'r'))] *)
Definition file_json (w : world) : option value :=
  match files w !! path with
  | Some text => Json.loads text
  | None => None
  end.
End Main.

(** ** Reading an outcome *)

(** The exception raised, if the call raised. *)
Definition raised {A} (o : outcome A) : option exn :=
  match o with
  | Raise e _ _ => Some e
  | Return _ _ _ | Blocked _ _ => None
  end.

(** A value of the JSON grammar in which every dict holds each key once:
    what [json.loads] produces. *)
Definition decoded (v : value) : Prop := is_json v = true /\ wf v.

(** The world after the object at [l] became [v]. *)
Definition assigned (l : loc) (v : value) (w : world) : world :=
  World (<[l := v]> (heap w)) (files w) (denied w) (trace w).

(** ** Reading a trace *)

(** Whether, in the events of a block from the point where its body ends, a
    file is closed before the lock is released for the first time. *)
Fixpoint flush_precedes_release (evs : list event) : bool :=
  match evs with
  | [] => false
  | Close _ :: _ => true
  | Release :: _ => false
  | _ :: evs' => flush_precedes_release evs'
  end.

(** The world after a [dump] that wrote [s] to [p]. *)
Definition dumped (p s : string) (w : world) : world :=
  World (heap w) (<[p := s]> (files w)) (denied w)
        (trace w ++ [Acquire; Open p W; Close p; Release]).

(** The instance as the body of its own [with] block finds it. *)
Definition entered (self : JSONDatabase) : JSONDatabase :=
  Self (location self) (store self) true.

(** The world after an [__exit__] that wrote [s] to [p]: the lock is
    released, then [dump] takes it again, writes, and releases it. *)
Definition exited (p s : string) (w : world) : world :=
  World (heap w) (<[p := s]> (files w)) (denied w)
        (trace w ++ [Release; Acquire; Open p W; Close p; Release]).

(** The world after a [load] of [p] that decoded [v] into a new object. *)
Definition loaded (p : string) (v : value) (w : world) : world :=
  World (<[fresh (dom (heap w)) := v]> (heap w)) (files w) (denied w)
        (trace w ++ [Acquire; Open p R; Close p; Release]).

(** * Properties *)

(** ** Induction on values, through the lists inside them *)

Section value_induction.
Variable P : value -> Prop.
Hypothesis HNone : P VNone.
Hypothesis HBool : forall b, P (VBool b).
Hypothesis HInt : forall z, P (VInt z).
Hypothesis HStr : forall s, P (VStr s).
Hypothesis HList : forall l, Forall P l -> P (VList l).
Hypothesis HDict : forall d, Forall (fun kv => P (snd kv)) d -> P (VDict d).
Hypothesis HObject : forall n, P (VObject n).

Fixpoint value_ind' (v : value) : P v :=
  match v with
  | VNone => HNone
  | VBool b => HBool b
  | VInt z => HInt z
  | VStr s => HStr s
  | VList l =>
      HList l ((fix go (l : list value) : Forall P l :=
                  match l with
                  | [] => List.Forall_nil P
                  | x :: xs => List.Forall_cons P x xs (value_ind' x) (go xs)
                  end) l)
  | VDict d =>
      HDict d ((fix go (d : list (string * value)) : Forall (fun kv => P (snd kv)) d :=
                  match d with
                  | [] => List.Forall_nil _
                  | kv :: d' => List.Forall_cons _ kv d' (value_ind' (snd kv)) (go d')
                  end) d)
  | VObject n => HObject n
  end.
End value_induction.

(** ** The [json] module: decoding what was encoded *)

Module JsonFacts.
Import Json.

#[local] Arguments String.append !s1 s2 : simpl nomatch.

Lemma append_assoc (a b c : string) : ((a ++ b) ++ c = a ++ (b ++ c))%string.
Proof. induction a as [|x a IH]; simpl; [reflexivity | now rewrite IH]. Qed.

Lemma append_nil_r (a : string) : (a ++ EmptyString)%string = a.
Proof. induction a as [|x a IH]; simpl; [reflexivity | now rewrite IH]. Qed.

Lemma length_append (a b : string) :
  String.length (a ++ b) = (String.length a + String.length b)%nat.
Proof. induction a as [|x a IH]; simpl; [reflexivity | now rewrite IH]. Qed.

(** *** Encoding *)

Lemma write_chunks_app (a b : list chunk) :
  write_chunks (a ++ b) =
  match write_chunks a with
  | (s, true) => let '(t, ok) := write_chunks b in ((s ++ t)%string, ok)
  | (s, false) => (s, false)
  end.
Proof.
  induction a as [|[c|] a IH]; simpl.
  - now destruct (write_chunks b).
  - rewrite IH. destruct (write_chunks a) as [s [|]].
    + destruct (write_chunks b) as [t ok]. now rewrite append_assoc.
    + reflexivity.
  - reflexivity.
Qed.

(** On a value of the JSON grammar the chunks join to [encode] and the loop
    runs to its end. *)
Lemma dump_encode (v : value) : is_json v = true -> dump v = (encode v, true).
Proof.
  unfold dump. induction v as [| b | z | s | l IH | d IH | n] using value_ind';
    intros Hj; try reflexivity; try discriminate.
  - now destruct b.
  - simpl. now rewrite append_nil_r.
  - simpl. now rewrite append_nil_r.
  - (* list *)
    destruct l as [|x xs]; [reflexivity|].
    simpl in Hj. apply andb_prop in Hj as [Hx Hxs].
    inversion IH as [|? ? IHx IHxs]; subst.
    cbn [iterencode encode].
    assert (Hrest : write_chunks
      ((fix items (l : list value) : list chunk :=
          match l with
          | [] => [Chunk "]"]
          | y :: ys => Chunk ", " :: (iterencode y ++ items ys)%list
          end) xs) = (items_text (map encode xs), true)).
    { clear Hx IHx IH. induction xs as [|y ys IHys]; [reflexivity|].
      simpl in Hxs. apply andb_prop in Hxs as [Hy Hys].
      inversion IHxs as [|? ? IHy IHys']; subst.
      cbn [write_chunks map items_text].
      rewrite write_chunks_app, (IHy Hy), (IHys Hys IHys'). reflexivity. }
    cbn [write_chunks].
    rewrite write_chunks_app, (IHx Hx), Hrest. reflexivity.
  - (* dict *)
    destruct d as [|[k x] kxs]; [reflexivity|].
    simpl in Hj. apply andb_prop in Hj as [Hx Hxs].
    inversion IH as [|? ? IHx IHxs]; subst. simpl in IHx.
    cbn [iterencode encode].
    assert (Hrest : write_chunks
      ((fix members (d : list (string * value)) : list chunk :=
          match d with
          | [] => [Chunk "}"]
          | (k', y) :: d' =>
              Chunk ", " :: Chunk (encode_basestring_ascii k') :: Chunk ": " ::
              (iterencode y ++ members d')%list
          end) kxs) =
      (members_text (map (fun kv => (fst kv, encode (snd kv))) kxs), true)).
    { clear Hx IHx IH. induction kxs as [|[k' y] ys IHys]; [reflexivity|].
      simpl in Hxs. apply andb_prop in Hxs as [Hy Hys].
      inversion IHxs as [|? ? IHy IHys']; subst. simpl in IHy.
      cbn [write_chunks map members_text fst snd].
      rewrite write_chunks_app, (IHy Hy), (IHys Hys IHys'). reflexivity. }
    cbn [write_chunks].
    rewrite write_chunks_app, (IHx Hx), Hrest. reflexivity.
Qed.

(** A run of the loop to its end only happens on a value of the grammar. *)
Lemma dump_ok_is_json (v : value) (s : string) :
  dump v = (s, true) -> is_json v = true.
Proof.
  unfold dump. revert s.
  induction v as [| b | z | s0 | l IH | d IH | n] using value_ind';
    intros s Hd; try reflexivity; try discriminate.
  - destruct l as [|x xs]; [reflexivity|].
    inversion IH as [|? ? IHx IHxs]; subst.
    cbn [iterencode write_chunks] in Hd. rewrite write_chunks_app in Hd.
    destruct (write_chunks (iterencode x)) as [sx [|]] eqn:Ex;
      [|destruct (write_chunks _); discriminate].
    simpl. rewrite (IHx _ eq_refl). simpl.
    match type of Hd with context [write_chunks ?t] =>
      destruct (write_chunks t) as [sr okr] eqn:Er end.
    assert (okr = true) as -> by congruence. clear Hd Ex IHx IH.
    revert sr Er. induction xs as [|y ys IHys]; intros sr Er; [reflexivity|].
    inversion IHxs as [|? ? IHy IHys']; subst.
    cbn [write_chunks] in Er. rewrite write_chunks_app in Er.
    destruct (write_chunks (iterencode y)) as [sy [|]] eqn:Ey;
      [|destruct (write_chunks _); discriminate].
    rewrite (IHy _ eq_refl). simpl.
    match type of Er with context [write_chunks ?t] =>
      destruct (write_chunks t) as [sr' okr'] eqn:Er' end.
    assert (okr' = true) as -> by congruence.
    eapply IHys; eauto.
  - destruct d as [|[k x] kxs]; [reflexivity|].
    inversion IH as [|? ? IHx IHxs]; subst. simpl in IHx.
    cbn [iterencode write_chunks] in Hd. rewrite write_chunks_app in Hd.
    destruct (write_chunks (iterencode x)) as [sx [|]] eqn:Ex;
      [|destruct (write_chunks _); discriminate].
    simpl. rewrite (IHx _ eq_refl). simpl.
    match type of Hd with context [write_chunks ?t] =>
      destruct (write_chunks t) as [sr okr] eqn:Er end.
    assert (okr = true) as -> by congruence. clear Hd Ex IHx IH.
    revert sr Er. induction kxs as [|[k' y] ys IHys]; intros sr Er; [reflexivity|].
    inversion IHxs as [|? ? IHy IHys']; subst. simpl in IHy.
    cbn [write_chunks] in Er. rewrite write_chunks_app in Er.
    destruct (write_chunks (iterencode y)) as [sy [|]] eqn:Ey;
      [|destruct (write_chunks _); discriminate].
    rewrite (IHy _ eq_refl). simpl.
    match type of Er with context [write_chunks ?t] =>
      destruct (write_chunks t) as [sr' okr'] eqn:Er' end.
    assert (okr' = true) as -> by congruence.
    eapply IHys; eauto.
Qed.

Lemma dumps_Some (v : value) (s : string) :
  dumps v = Some s <-> is_json v = true /\ s = encode v.
Proof.
  unfold dumps. split.
  - destruct (dump v) as [t [|]] eqn:E; [|discriminate].
    intros [= <-]. pose proof (dump_ok_is_json _ _ E) as Hj.
    split; [exact Hj|]. rewrite (dump_encode _ Hj) in E. congruence.
  - intros [Hj ->]. now rewrite (dump_encode _ Hj).
Qed.

(** *** Decoding text *)

Lemma scanstring_escape_char (c : ascii) (tail : string) :
  scanstring (escape_char c ++ tail) = cons_str c (scanstring tail).
Proof. destruct c as [[] [] [] [] [] [] [] []]; reflexivity. Qed.

Lemma scanstring_escape (s rest : string) :
  scanstring (escape s ++ String quote rest) = Some (s, rest).
Proof.
  induction s as [|c s IH]; [reflexivity|].
  cbn [escape]. now rewrite append_assoc, scanstring_escape_char, IH.
Qed.

Lemma scanstring_encode (s rest : string) :
  exists t, (encode_basestring_ascii s ++ rest)%string = String quote t /\
            scanstring t = Some (s, rest).
Proof.
  exists (escape s ++ String quote rest)%string. split.
  - unfold encode_basestring_ascii. simpl. now rewrite append_assoc.
  - apply scanstring_escape.
Qed.

(** *** Decoding integers *)

Lemma span_digits_uint (d : Decimal.uint) (rest : string) :
  starts_with_digit rest = false ->
  span_digits (NilEmpty.string_of_uint d ++ rest) = (NilEmpty.string_of_uint d, rest).
Proof.
  intros Hr. induction d; simpl; try (rewrite IHd; reflexivity).
  destruct rest as [|c r]; [reflexivity|]. simpl in *. now rewrite Hr.
Qed.

Lemma to_uint_head (p : positive) :
  exists c r, NilEmpty.string_of_uint (Pos.to_uint p) = String c r /\
              is_digit c = true /\ Ascii.eqb c "0" = false.
Proof.
  pose proof (DecimalPos.Unsigned.to_uint_nonnil p) as Hnil.
  assert (Hnz : Decimal.nzhead (Pos.to_uint p) = Pos.to_uint p).
  { pose proof (DecimalN.Unsigned.to_of (Pos.to_uint p)) as H.
    rewrite DecimalPos.Unsigned.of_to in H. simpl in H.
    rewrite <- DecimalFacts.unorm_nzhead; [now symmetry|].
    intros Hn. apply DecimalFacts.unorm_0 in Hn.
    rewrite <- H in Hn. now apply (DecimalPos.Unsigned.to_uint_nonzero p). }
  destruct (Pos.to_uint p) as [|u|u|u|u|u|u|u|u|u|u] eqn:E;
    try (simpl; eexists _, _; repeat split; reflexivity).
  - congruence.
  - exfalso. now apply (DecimalFacts.nzhead_nonzero (Decimal.D0 u) u).
Qed.

Lemma scan_uint_head (c : ascii) (r : string) :
  is_digit c = true -> Ascii.eqb c "0" = false ->
  scan_uint (String c r) =
  let '(ds, rest) := span_digits (String c r) in
  match NilEmpty.uint_of_string ds with
  | Some u => Some (N.of_uint u, rest)
  | None => None
  end.
Proof. intros Hd Hz. unfold scan_uint. now rewrite Hz, Hd. Qed.

Lemma scan_uint_pos (p : positive) (rest : string) :
  starts_with_digit rest = false ->
  scan_uint (NilEmpty.string_of_uint (Pos.to_uint p) ++ rest) = Some (Npos p, rest).
Proof.
  intros Hr. destruct (to_uint_head p) as (c & r & E & Hd & Hz).
  assert (Hs : (NilEmpty.string_of_uint (Pos.to_uint p) ++ rest)%string
               = String c (r ++ rest)) by now rewrite E.
  rewrite Hs, (scan_uint_head _ _ Hd Hz), <- Hs, (span_digits_uint _ _ Hr), NilEmpty.usu.
  now rewrite <- (DecimalPos.Unsigned.of_to p).
Qed.

Lemma delim_follow (rest : string) :
  delim rest = true ->
  starts_with_digit rest = false /\ frac_follows rest = false /\ exp_follows rest = false.
Proof.
  destruct rest as [|c r]; [now repeat split|]. unfold delim.
  intros H. repeat apply orb_prop in H as [H|H]; apply Ascii.eqb_eq in H as ->;
    now repeat split.
Qed.

Lemma scan_number_repr (z : Z) (rest : string) :
  delim rest = true -> scan_number (int_repr z ++ rest) = Some (z, rest).
Proof.
  intros Hd. destruct (delim_follow _ Hd) as (H1 & H2 & H3).
  destruct z as [|p|p].
  - unfold scan_number. simpl. now rewrite H2, H3.
  - destruct (to_uint_head p) as (c & r & E & Hc & _).
    assert (Ascii.eqb c "-" = false) as Hm.
    { destruct (Ascii.eqb_spec c "-") as [->|]; [discriminate Hc | reflexivity]. }
    assert (Hs : (int_repr (Zpos p) ++ rest)%string = String c (r ++ rest))
      by (unfold int_repr; now rewrite E).
    unfold scan_number. rewrite Hs, Hm, <- Hs. unfold int_repr.
    now rewrite (scan_uint_pos _ _ H1), H2, H3.
  - unfold scan_number, int_repr. cbn [String.append]. simpl Ascii.eqb. cbv iota.
    now rewrite (scan_uint_pos _ _ H1), H2, H3.
Qed.

(** *** The invariants of lists and dicts, as [forallb] and [Forall] *)

Lemma is_json_list (l : list value) : is_json (VList l) = forallb is_json l.
Proof. induction l as [|x xs IH]; simpl in *; [reflexivity | now rewrite IH]. Qed.

Lemma is_json_dict (d : dict) : is_json (VDict d) = forallb (fun kv => is_json (snd kv)) d.
Proof. induction d as [|[k x] xs IH]; simpl in *; [reflexivity | now rewrite IH]. Qed.

Lemma wf_list (l : list value) : wf (VList l) <-> Forall wf l.
Proof.
  induction l as [|x xs IH]; simpl in *.
  - split; [constructor | trivial].
  - rewrite List.Forall_cons_iff. tauto.
Qed.

Lemma wf_dict (d : dict) :
  wf (VDict d) <-> NoDup (map fst d) /\ Forall (fun kv => wf (snd kv)) d.
Proof.
  simpl. apply and_iff_compat_l.
  induction d as [|[k x] xs IH]; simpl in *.
  - split; [constructor | trivial].
  - rewrite List.Forall_cons_iff. simpl. tauto.
Qed.

(** *** One step of the decoder on each kind of input *)

Lemma is_start_facts (c : ascii) :
  is_start c = true ->
  is_ws c = false /\ Ascii.eqb c "]" = false /\ Ascii.eqb c "}" = false.
Proof.
  destruct c as [[] [] [] [] [] [] [] []]; intros H;
    try (vm_compute in H; discriminate H); now repeat split.
Qed.

Lemma skip_ws_start (c : ascii) (r : string) :
  is_start c = true -> skip_ws (String c r) = String c r.
Proof. intros H. simpl. now destruct (is_start_facts c H) as (-> & _). Qed.

Lemma scan_once_number (f : nat) (c : ascii) (r : string) :
  is_digit c || Ascii.eqb c "-" = true ->
  scan_once (S f) (String c r) =
  match scan_number (String c r) with
  | Some (z, r') => Some (VInt z, r')
  | None => None
  end.
Proof.
  destruct c as [[] [] [] [] [] [] [] []]; intros H;
    try (vm_compute in H; discriminate H); reflexivity.
Qed.

Lemma scan_once_string (f : nat) (t : string) :
  scan_once (S f) (String quote t) =
  match scanstring t with
  | Some (s, r) => Some (VStr s, r)
  | None => None
  end.
Proof. reflexivity. Qed.

Lemma scan_once_array (f : nat) (c : ascii) (r : string) :
  is_start c = true ->
  scan_once (S f) (String "[" (String c r)) =
  match array_items f (String c r) with
  | Some (vs, r') => Some (VList vs, r')
  | None => None
  end.
Proof.
  destruct c as [[] [] [] [] [] [] [] []]; intros H;
    try (vm_compute in H; discriminate H); reflexivity.
Qed.

Lemma scan_once_object (f : nat) (r : string) :
  scan_once (S f) (String "{" (String quote r)) =
  match object_items f (String quote r) with
  | Some (ps, r') => Some (VDict (dict_of_pairs ps), r')
  | None => None
  end.
Proof. reflexivity. Qed.

Lemma array_items_S (f : nat) (s : string) :
  array_items (S f) s =
  match scan_once f s with
  | Some (v, r) =>
      match skip_ws r with
      | String c r1 =>
          if Ascii.eqb c "]" then Some ([v], r1)
          else if Ascii.eqb c "," then
            match array_items f (skip_ws r1) with
            | Some (vs, r2) => Some (v :: vs, r2)
            | None => None
            end
          else None
      | EmptyString => None
      end
  | None => None
  end.
Proof. reflexivity. Qed.

Lemma object_items_S (f : nat) (r : string) :
  object_items (S f) (String quote r) =
  match scanstring r with
  | Some (k, r1) =>
      match skip_ws r1 with
      | String c r2 =>
          if Ascii.eqb c ":" then
            match scan_once f (skip_ws r2) with
            | Some (v, r3) =>
                match skip_ws r3 with
                | String c' r4 =>
                    if Ascii.eqb c' "}" then Some ([(k, v)], r4)
                    else if Ascii.eqb c' "," then
                      match object_items f (skip_ws r4) with
                      | Some (ps, r5) => Some ((k, v) :: ps, r5)
                      | None => None
                      end
                    else None
                | EmptyString => None
                end
            | None => None
            end
          else None
      | EmptyString => None
      end
  | None => None
  end.
Proof. reflexivity. Qed.

(** *** The first character of a text *)

Lemma int_repr_head (z : Z) :
  exists c r, int_repr z = String c r /\ is_digit c || Ascii.eqb c "-" = true.
Proof.
  destruct z as [|p|p].
  - now eexists _, _.
  - destruct (to_uint_head p) as (c & r & E & Hc & _).
    exists c, r. split; [exact E | now rewrite Hc].
  - now eexists _, _.
Qed.

Lemma encode_head (v : value) :
  is_json v = true -> exists c r, encode v = String c r /\ is_start c = true.
Proof.
  destruct v as [| [|] | z | s | [|x xs] | [|[k x] kxs] | n]; intros Hj;
    try discriminate; try (now eexists _, _).
  destruct (int_repr_head z) as (c & r & E & Hc).
  exists c, r. split; [exact E|]. unfold is_start.
  apply orb_prop in Hc as [-> | ->]; [reflexivity | now rewrite orb_true_r].
Qed.

Lemma skip_ws_encode (v : value) (rest : string) :
  is_json v = true -> skip_ws (encode v ++ rest) = (encode v ++ rest)%string.
Proof.
  intros Hj. destruct (encode_head v Hj) as (c & r & -> & Hc).
  now apply skip_ws_start.
Qed.

Lemma encode_length (v : value) : is_json v = true -> (1 <= String.length (encode v))%nat.
Proof.
  intros Hj. destruct (encode_head v Hj) as (c & r & -> & _). simpl. lia.
Qed.

Lemma items_text_length (l : list string) : (1 <= String.length (items_text l))%nat.
Proof. destruct l; simpl; lia. Qed.

Lemma members_text_length (l : list (string * string)) :
  (1 <= String.length (members_text l))%nat.
Proof. destruct l as [|[k s] l]; simpl; lia. Qed.

Lemma delim_items (l : list string) (rest : string) :
  delim (items_text l ++ rest) = true.
Proof. now destruct l. Qed.

Lemma delim_members (l : list (string * string)) (rest : string) :
  delim (members_text l ++ rest) = true.
Proof. now destruct l as [|[k s] l]. Qed.

(** *** [dict(pairs)] on pairs with distinct keys *)

Lemma dict_set_fresh (k : string) (v : value) (d : dict) :
  k ∉ map fst d -> dict_set k v d = (d ++ [(k, v)])%list.
Proof.
  induction d as [|[k' v'] d IH]; intros Hk; [reflexivity|].
  simpl in *. apply not_elem_of_cons in Hk as [Hne Hk].
  destruct (String.eqb_spec k k') as [->|_]; [congruence|].
  now rewrite IH.
Qed.

Lemma fold_dict_set (l acc : dict) :
  NoDup (map fst (acc ++ l)%list) ->
  fold_left (fun d kv => dict_set (fst kv) (snd kv) d) l acc = (acc ++ l)%list.
Proof.
  revert acc. induction l as [|[k v] l IH]; intros acc Hnd; simpl.
  - now rewrite List.app_nil_r.
  - assert (Hk : k ∉ map fst acc).
    { rewrite List.map_app in Hnd. apply NoDup_app in Hnd as (_ & Hd & _).
      intros Hin. apply (Hd k Hin). simpl. apply elem_of_cons. now left. }
    rewrite (dict_set_fresh _ _ _ Hk), IH; rewrite <- List.app_assoc; [reflexivity | exact Hnd].
Qed.

Lemma dict_of_pairs_NoDup (d : dict) : NoDup (map fst d) -> dict_of_pairs d = d.
Proof. intros H. unfold dict_of_pairs. now rewrite fold_dict_set. Qed.

(** *** Decoding an encoded value *)

Lemma array_items_encode (xs : list value) :
  forall x, Forall decodes (x :: xs) -> forallb is_json (x :: xs) = true ->
  forall (f : nat) (rest : string),
    (2 * String.length (encode x ++ items_text (map encode xs)) <= f)%nat ->
    array_items f (encode x ++ items_text (map encode xs) ++ rest) = Some (x :: xs, rest).
Proof.
  induction xs as [|y ys IH]; intros x Hdec Hj f rest Hf;
    apply List.Forall_cons_iff in Hdec as [Hx Hdec];
    simpl in Hj; apply andb_prop in Hj as [Hjx Hj];
    rewrite length_append in Hf;
    (destruct f as [|f]; [pose proof (encode_length x Hjx); lia|]);
    rewrite array_items_S.
  - rewrite Hx; [reflexivity | simpl in Hf; lia | reflexivity].
  - rewrite Hx; [| pose proof (items_text_length (map encode (y :: ys))); lia
                   | apply delim_items].
    cbn [map items_text]. rewrite !append_assoc. simpl.
    rewrite (skip_ws_encode y _ (proj1 (andb_prop _ _ Hj))).
    rewrite IH; [reflexivity | exact Hdec | exact Hj |].
    cbn [map items_text] in Hf. simpl in Hf. lia.
Qed.

Lemma object_items_encode (kxs : dict) :
  forall k x, Forall (fun kv => decodes (snd kv)) ((k, x) :: kxs) ->
  forallb (fun kv => is_json (snd kv)) ((k, x) :: kxs) = true ->
  forall (f : nat) (rest : string),
    (2 * String.length (encode_basestring_ascii k ++ ": " ++ encode x ++
       members_text (map (fun kv => (fst kv, encode (snd kv))) kxs)) <= f)%nat ->
    object_items f (encode_basestring_ascii k ++ ": " ++ encode x ++
       members_text (map (fun kv => (fst kv, encode (snd kv))) kxs) ++ rest)
    = Some ((k, x) :: kxs, rest).
Proof.
  induction kxs as [|[k' y] ys IH]; intros k x Hdec Hj f rest Hf;
    apply List.Forall_cons_iff in Hdec as [Hx Hdec]; simpl in Hx;
    simpl in Hj; apply andb_prop in Hj as [Hjx Hj];
    rewrite !length_append in Hf;
    (destruct f as [|f]; [pose proof (encode_length x Hjx); lia|]);
    match goal with |- object_items _ (?a ++ ?b)%string = _ =>
      destruct (scanstring_encode k b) as (t & -> & Ht) end;
    rewrite object_items_S, Ht;
    match goal with |- context [(members_text ?l ++ ?r)%string] =>
      set (tail := (members_text l ++ r)%string) end;
    simpl; rewrite (skip_ws_encode x _ Hjx);
    (rewrite Hx; [| simpl in Hf; lia | apply delim_members]);
    subst tail.
  - reflexivity.
  - cbn [map members_text fst snd]. rewrite !append_assoc.
    match goal with |- context [(encode_basestring_ascii ?a ++ ?b)%string] =>
      remember (encode_basestring_ascii a ++ b)%string as tail eqn:Etail end.
    simpl. replace (skip_ws tail) with tail by (subst tail; reflexivity).
    subst tail. rewrite IH; [reflexivity | exact Hdec | exact Hj |].
    cbn [map members_text fst snd] in Hf.
    rewrite !length_append in Hf. rewrite !length_append.
    cbn [String.length] in Hf |- *. lia.
Qed.

Lemma scan_once_encode (v : value) : is_json v = true -> wf v -> decodes v.
Proof.
  induction v as [| b | z | s | l IH | d IH | n] using value_ind';
    intros Hj Hwf f rest Hf Hd; try discriminate;
    (destruct f as [|f]; [pose proof (encode_length _ Hj); lia|]).
  - reflexivity.
  - now destruct b.
  - destruct (int_repr_head z) as (c & r & E & Hc).
    assert (Hs : (encode (VInt z) ++ rest)%string = String c (r ++ rest))
      by (simpl; now rewrite E).
    rewrite Hs, (scan_once_number _ _ _ Hc), <- Hs. simpl encode.
    now rewrite (scan_number_repr _ _ Hd).
  - destruct (scanstring_encode s rest) as (t & E & Ht).
    simpl encode. now rewrite E, scan_once_string, Ht.
  - destruct l as [|x xs]; [reflexivity|].
    rewrite is_json_list in Hj. apply wf_list in Hwf.
    assert (Hdec : Forall decodes (x :: xs)).
    { rewrite List.Forall_forall in *. intros y Hy. apply IH; auto.
      rewrite forallb_forall in Hj. auto. }
    destruct (encode_head x) as (c & r & E & Hc).
    { simpl in Hj. now apply andb_prop in Hj as [? _]. }
    cbn [encode] in Hf |- *. rewrite !append_assoc.
    change ("[" ++ ?a)%string with (String "[" a).
    pose proof (array_items_encode xs x Hdec Hj f rest) as Ha.
    rewrite E in Ha |- *. cbn [String.append] in Ha |- *.
    rewrite (scan_once_array _ _ _ Hc), Ha; [reflexivity|].
    rewrite E in Hf. cbn [String.append String.length] in Hf |- *. lia.
  - destruct d as [|[k x] kxs]; [reflexivity|].
    rewrite is_json_dict in Hj. apply wf_dict in Hwf as [Hnd Hwf].
    assert (Hdec : Forall (fun kv => decodes (snd kv)) ((k, x) :: kxs)).
    { rewrite List.Forall_forall in *. intros y Hy. apply IH; auto.
      rewrite forallb_forall in Hj. auto. }
    cbn [encode] in Hf |- *. rewrite !append_assoc.
    change ("{" ++ ?a)%string with (String "{" a).
    pose proof (object_items_encode kxs k x Hdec Hj f rest) as Ha.
    destruct (scanstring_encode k (": " ++ encode x ++
      members_text (map (fun kv => (fst kv, encode (snd kv))) kxs) ++ rest)) as (t & E & _).
    rewrite E in Ha |- *.
    rewrite scan_once_object, Ha.
    + now rewrite (dict_of_pairs_NoDup _ Hnd).
    + cbn [String.append String.length] in Hf |- *. lia.
Qed.

(** What [json.dumps] wrote, [json.loads] reads back. *)
Theorem loads_dumps (v : value) (s : string) :
  wf v -> dumps v = Some s -> loads s = Some v.
Proof.
  intros Hwf Hs. apply dumps_Some in Hs as [Hj ->].
  unfold loads.
  rewrite <- (append_nil_r (encode v)) at 2.
  rewrite skip_ws_encode by exact Hj.
  rewrite (scan_once_encode v Hj Hwf); [reflexivity | lia | reflexivity].
Qed.

End JsonFacts.

(** ** Dicts *)

Lemma dict_get_set (k : string) (v : value) (d : dict) :
  dict_get k (dict_set k v d) = Some v.
Proof.
  induction d as [|[k' v'] d IH]; simpl.
  - now rewrite String.eqb_refl.
  - destruct (String.eqb k k') eqn:E; simpl.
    + now rewrite String.eqb_refl.
    + now rewrite E.
Qed.

Lemma dict_get_None (k : string) (d : dict) :
  dict_get k d = None <-> k ∉ keys d.
Proof.
  unfold keys. induction d as [|[k' v'] d IH]; simpl.
  - split; [intros _; apply not_elem_of_nil | reflexivity].
  - rewrite not_elem_of_cons. destruct (String.eqb_spec k k') as [->|Hne].
    + split; [discriminate | intros [H _]; congruence].
    + rewrite IH. tauto.
Qed.

Lemma dict_del_None (k : string) (d : dict) :
  dict_get k d = None -> dict_del k d = None.
Proof.
  induction d as [|[k' v'] d IH]; simpl; [reflexivity|].
  destruct (String.eqb k k'); [discriminate|].
  intros H. now rewrite (IH H).
Qed.

(** ** The mapping operations *)

Lemma getitem_dict_at (self : JSONDatabase) (w : world) (d : dict) (k : string) :
  heap w !! store self = Some (VDict d) ->
  __getitem__ k self w =
  match dict_get k d with
  | Some x => Return x self w
  | None => Raise (KeyError k) self w
  end.
Proof.
  intros H. unfold __getitem__, mbind, M_bind, bind, get_store, deref. simpl.
  rewrite H. simpl. now destruct (dict_get k d).
Qed.

Section mapping.
Variables (self : JSONDatabase) (w : world).

Lemma getitem_dict (d : dict) (k : string) :
  heap w !! store self = Some (VDict d) ->
  __getitem__ k self w =
  match dict_get k d with
  | Some x => Return x self w
  | None => Raise (KeyError k) self w
  end.
Proof. apply getitem_dict_at. Qed.

Lemma setitem_dict (d : dict) (k : string) (v : value) :
  heap w !! store self = Some (VDict d) ->
  __setitem__ k v self w =
  Return tt self (World (<[store self := VDict (dict_set k v d)]> (heap w))
                        (files w) (denied w) (trace w)).
Proof.
  intros H. unfold __setitem__, mbind, M_bind, bind, get_store, deref. simpl.
  now rewrite H.
Qed.

Lemma delitem_dict (d : dict) (k : string) :
  heap w !! store self = Some (VDict d) ->
  __delitem__ k self w =
  match dict_del k d with
  | Some d' => Return tt self (World (<[store self := VDict d']> (heap w))
                                     (files w) (denied w) (trace w))
  | None => Raise (KeyError k) self w
  end.
Proof.
  intros H. unfold __delitem__, mbind, M_bind, bind, get_store, deref. simpl.
  rewrite H. simpl. now destruct (dict_del k d).
Qed.

(** C7: a value set under a key is the value got under it. *)
Theorem set_then_get (k : string) (v : value) (d : dict) :
  heap w !! store self = Some (VDict d) ->
  exists w', __setitem__ k v self w = Return tt self w' /\
             __getitem__ k self w' = Return v self w'.
Proof.
  intros H. eexists. split; [apply setitem_dict; exact H|].
  rewrite (getitem_dict_at _ _ (dict_set k v d)).
  - now rewrite dict_get_set.
  - simpl. apply lookup_insert_eq.
Qed.

(** C8: on a key that the document does not hold, [__getitem__] and
    [__delitem__] raise [KeyError], and leave the instance and the world
    as they were. *)
Theorem absent_key_raises (k : string) (d : dict) :
  heap w !! store self = Some (VDict d) -> k ∉ keys d ->
  __getitem__ k self w = Raise (KeyError k) self w /\
  __delitem__ k self w = Raise (KeyError k) self w.
Proof.
  intros H Hk. apply dict_get_None in Hk.
  rewrite (getitem_dict d), (delitem_dict d) by exact H.
  now rewrite Hk, (dict_del_None _ _ Hk).
Qed.

(** C9: [__setitem__] and [__delitem__] touch neither the files nor the
    [location] attribute, and open no file. *)
Theorem set_del_leave_files (k : string) (v : value) :
  (files (world_of (__setitem__ k v self w)) = files w /\
   trace (world_of (__setitem__ k v self w)) = trace w /\
   location (self_of (__setitem__ k v self w)) = location self) /\
  (files (world_of (__delitem__ k self w)) = files w /\
   trace (world_of (__delitem__ k self w)) = trace w /\
   location (self_of (__delitem__ k self w)) = location self).
Proof.
  unfold __setitem__, __delitem__, mbind, M_bind, bind, get_store, deref. simpl.
  destruct (heap w !! store self) as [[| | | | |d|]|]; simpl; auto.
  destruct (dict_del k d); simpl; auto.
Qed.
End mapping.

(** ** Persistence: [dump] and [load] *)

Lemma log_trace (e : event) (w : world) : trace (log e w) = (trace w ++ [e])%list.
Proof. reflexivity. Qed.

(** Unfolds the methods and the monad down to matches on outcomes. *)
Ltac run_methods :=
  cbv [dump load overwrite __init__ __enter__ __exit__ with_self with_lock with_
       acquire release mbind M_bind bind mret M_ret ret raise
       get_location get_store set_store deref assign alloc
       open_w open_r close emit log json_dump json_load fwrite fread
       __getitem__ __setitem__ __delitem__ __len__ as_dict];
  simpl.

Section persistence.
Variables (self : JSONDatabase) (w : world).

(** [dump] on a free lock and a path that can be opened: the text that
    [json.dump] got out replaces the file, and a [TypeError] comes after. *)
Lemma dump_free (v : value) :
  lock self = false -> location self ∉ denied w ->
  heap w !! store self = Some v ->
  dump self w =
  (if snd (Json.dump v) then Return tt else Raise TypeError)
    self (dumped (location self) (fst (Json.dump v)) w).
Proof.
  intros Hl Hd Hv. destruct self as [p l lk]. simpl in *. subst lk.
  run_methods. rewrite bool_decide_eq_false_2 by exact Hd. simpl. rewrite Hv.
  destruct (Json.dump v) as [s [|]]; simpl;
    rewrite lookup_insert_eq, insert_insert_eq; simpl;
    unfold dumped; simpl; rewrite <- !app_assoc; reflexivity.
Qed.

Lemma dump_ok (v : value) (s : string) :
  lock self = false -> location self ∉ denied w ->
  heap w !! store self = Some v -> Json.dumps v = Some s ->
  dump self w = Return tt self (dumped (location self) s w).
Proof.
  intros Hl Hd Hv Hs. rewrite (dump_free v Hl Hd Hv). unfold Json.dumps in Hs.
  destruct (Json.dump v) as [t [|]]; [|discriminate]. now inversion Hs.
Qed.

(** [dump] never returns when the lock is held. *)
Lemma dump_held : lock self = true -> dump self w = Blocked self w.
Proof.
  intros Hl. run_methods. now rewrite Hl.
Qed.

(** [load] on a free lock, a path that can be opened and a text that
    decodes. *)
Lemma load_ok (text : string) (v : value) :
  lock self = false -> location self ∉ denied w ->
  files w !! location self = Some text -> Json.loads text = Some v ->
  load self w =
  Return tt (Self (location self) (fresh (dom (heap w))) false)
            (loaded (location self) v w).
Proof.
  intros Hl Hd Hf Hv. destruct self as [p l lk]. simpl in *. subst lk.
  run_methods. rewrite bool_decide_eq_false_2 by exact Hd. repeat (rewrite Hf; simpl).
  rewrite Hv. simpl.
  unfold loaded; simpl; rewrite <- !app_assoc; reflexivity.
Qed.

(** C4: a [load] that raises leaves [self.store] and every object as they
    were, so the document is the one from before the call. *)
Theorem load_failure_keeps_document (e : exn) (self' : JSONDatabase) (w' : world) :
  load self w = Raise e self' w' ->
  store self' = store self /\ heap w' = heap w /\
  heap w' !! store self' = heap w !! store self.
Proof.
  destruct self as [p l lk].
  run_methods. destruct lk; [discriminate|]. simpl.
  destruct (bool_decide (p ∈ denied w)); simpl.
  { intros [= <- <- <-]. auto. }
  destruct (files w !! p) as [text|] eqn:Ef; simpl; rewrite ?Ef; simpl.
  2: { intros [= <- <- <-]. auto. }
  destruct (Json.loads text) as [v|]; simpl.
  - discriminate.
  - intros [= <- <- <-]. auto.
Qed.

(** A [load] raises when the file cannot be opened or its text cannot be
    decoded. *)
Lemma load_raises :
  lock self = false ->
  location self ∈ denied w \/ files w !! location self = None \/
  (exists text, files w !! location self = Some text /\ Json.loads text = None) ->
  exists e w', load self w = Raise e self w'.
Proof.
  intros Hl H. destruct self as [p l lk]. simpl in *. subst lk. run_methods.
  destruct (decide (p ∈ denied w)) as [Hd|Hd].
  { rewrite bool_decide_eq_true_2 by exact Hd. simpl. eauto. }
  rewrite bool_decide_eq_false_2 by exact Hd.
  destruct H as [H|[H|(text & H & Hv)]]; [contradiction | |];
    rewrite H; simpl; rewrite ?H; simpl; rewrite ?Hv; simpl; eauto.
Qed.
End persistence.

(** ** Construction *)

Lemma path_exists_Some (p : string) (w : world) (text : string) :
  files w !! p = Some text -> path_exists p w = true.
Proof. intros H. unfold path_exists. apply bool_decide_eq_true_2. eauto. Qed.

Lemma path_exists_None (p : string) (w : world) :
  files w !! p = None -> path_exists p w = false.
Proof.
  intros H. unfold path_exists. apply bool_decide_eq_false_2.
  rewrite H. intros [? [=]].
Qed.

Lemma init_dumps (p : string) (default : option loc) (b : bool) (w : world)
    (v : value) (s : string) :
  p ∉ denied w -> b = true \/ files w !! p = None ->
  heap w !! default_arg default = Some v -> Json.dumps v = Some s ->
  __init__ p default b w = Return tt (Self p (default_arg default) false) (dumped p s w).
Proof.
  intros Hd Hb Hv Hs. unfold __init__.
  assert (b || negb (path_exists p w) = true) as ->.
  { destruct Hb as [->|Hn]; [reflexivity|].
    rewrite (path_exists_None _ _ Hn). apply orb_true_r. }
  now apply (dump_ok (Self p (default_arg default) false) w v s).
Qed.

Lemma init_loads (p : string) (default : option loc) (w : world)
    (text : string) (v : value) :
  p ∉ denied w -> files w !! p = Some text -> Json.loads text = Some v ->
  __init__ p default false w =
  Return tt (Self p (fresh (dom (heap w))) false) (loaded p v w).
Proof.
  intros Hd Hf Hv. unfold __init__.
  rewrite (path_exists_Some _ _ _ Hf). simpl.
  now apply (load_ok (Self p (default_arg default) false) w text v).
Qed.

(** C5: with [overwrite] set, or no file at the path, [__init__] takes the
    default document as [self.store] and writes it to the path at once;
    otherwise it decodes the file and takes the result. *)
Theorem init_adopts_or_loads (p : string) (default : option loc) (b : bool) (w : world) :
  p ∉ denied w ->
  (b = true \/ files w !! p = None ->
   forall v s, heap w !! default_arg default = Some v -> Json.dumps v = Some s ->
     __init__ p default b w = Return tt (Self p (default_arg default) false) (dumped p s w)) /\
  (b = false ->
   forall text v, files w !! p = Some text -> Json.loads text = Some v ->
     __init__ p default b w =
     Return tt (Self p (fresh (dom (heap w))) false) (loaded p v w)).
Proof.
  intros Hd. split.
  - intros Hb v s Hv Hs. now apply (init_dumps p default b w v s).
  - intros -> text v Hf Hv. now apply (init_loads p default w text v).
Qed.

Lemma init_lock_free (p : string) (default : option loc) (b : bool) (w : world)
    (self : JSONDatabase) (w' : world) :
  __init__ p default b w = Return tt self w' -> lock self = false /\ location self = p.
Proof.
  run_methods. destruct (b || negb (path_exists p w)); simpl.
  - destruct (bool_decide (p ∈ denied w)); simpl; [discriminate|].
    destruct (heap w !! default_arg default) as [v|]; simpl; [|discriminate].
    destruct (Json.dump v) as [s [|]]; simpl; [|discriminate].
    intros [= <- <-]. auto.
  - destruct (bool_decide (p ∈ denied w)); simpl; [discriminate|].
    destruct (files w !! p) as [text|] eqn:Ef; simpl; rewrite ?Ef; simpl; [|discriminate].
    destruct (Json.loads text); simpl; [|discriminate].
    intros [= <- <-]. auto.
Qed.

(** C6: after [dump], a new instance over the same path, built without
    [overwrite], holds a document equal to the one that was dumped. *)
Theorem flush_then_construct_roundtrip (self : JSONDatabase) (w : world) (v : value)
    (default : option loc) :
  lock self = false -> location self ∉ denied w ->
  heap w !! store self = Some v -> wf v -> is_json v = true ->
  exists w1 self2 w2,
    dump self w = Return tt self w1 /\
    __init__ (location self) default false w1 = Return tt self2 w2 /\
    heap w2 !! store self2 = Some v.
Proof.
  intros Hl Hd Hv Hwf Hj.
  assert (Hs : Json.dumps v = Some (Json.encode v)) by now apply JsonFacts.dumps_Some.
  exists (dumped (location self) (Json.encode v) w). eexists _, _.
  split; [now apply (dump_ok self w v)|]. split.
  - apply (init_loads _ _ _ (Json.encode v) v); [exact Hd | |].
    + simpl. apply lookup_insert_eq.
    + now apply JsonFacts.loads_dumps.
  - simpl. apply lookup_insert_eq.
Qed.

(** C10: [overwrite] makes the given document the store and writes it to the
    file at once; after [overwrite] with an empty dict the length is zero and
    the file decodes to an empty dict. *)
Theorem overwrite_replaces_and_flushes (self : JSONDatabase) (w : world) (D : loc)
    (v : value) (s : string) :
  lock self = false -> location self ∉ denied w ->
  heap w !! D = Some v -> Json.dumps v = Some s ->
  let self' := Self (location self) D false in
  let w' := dumped (location self) s w in
  overwrite D self w = Return tt self' w' /\
  heap w' !! store self' = Some v /\
  files w' !! location self = Some s /\
  (v = VDict [] ->
   __len__ self' w' = Return 0%nat self' w' /\ Json.loads s = Some (VDict [])).
Proof.
  intros Hl Hd Hv Hs self' w'. split; [|split; [|split]].
  - unfold overwrite, mbind, M_bind, bind, set_store. rewrite Hl.
    now apply (dump_ok self' w v s).
  - exact Hv.
  - simpl. apply lookup_insert_eq.
  - intros ->. split.
    + run_methods. now rewrite Hv.
    + now inversion Hs.
Qed.

(** ** The [with] block *)

Lemma exit_ok (exc : option exn) (self : JSONDatabase) (w : world)
    (v : value) (s : string) :
  lock self = true -> location self ∉ denied w ->
  heap w !! store self = Some v -> Json.dumps v = Some s ->
  __exit__ exc self w =
  Return tt (Self (location self) (store self) false) (exited (location self) s w).
Proof.
  intros Hl Hd Hv Hs.
  unfold __exit__, mbind, M_bind, bind, release. rewrite Hl.
  rewrite (dump_ok _ _ v s); try assumption; try reflexivity.
  unfold dumped, exited, log. simpl. now rewrite <- app_assoc.
Qed.

Section scope.
Context {A : Type}.
Variables (body : M A) (self : JSONDatabase) (w : world).

(** C1, as amended: on the normal way out of a [with] block the lock
    taken on entry is released first; [dump] then writes the document
    under a hold of its own, and the block ends with the file holding the
    text of the document and the lock free. *)
Theorem scope_exit_releases_then_flushes (a : A) (self1 : JSONDatabase) (w1 : world)
    (v : value) (s : string) :
  lock self = false ->
  body (entered self) (log Acquire w) = Return a self1 w1 ->
  lock self1 = true -> location self1 ∉ denied w1 ->
  heap w1 !! store self1 = Some v -> Json.dumps v = Some s ->
  with_self body self w =
  Return a (Self (location self1) (store self1) false) (exited (location self1) s w1).
Proof.
  intros Hl Hb Hl1 Hd Hv Hs.
  unfold with_self, with_, __enter__, acquire. rewrite Hl.
  fold (entered self). rewrite Hb.
  unfold mbind, M_bind, bind. now rewrite (exit_ok None _ _ v s).
Qed.

(** C2: when the body raises, [__exit__] runs all the same, whatever the
    exception: the lock is released, the document as it is then is written
    to the file, and the exception of the body goes on to the caller. *)
Theorem scope_exit_on_error_flushes (e : exn) (self1 : JSONDatabase) (w1 : world)
    (v : value) (s : string) :
  lock self = false ->
  body (entered self) (log Acquire w) = Raise e self1 w1 ->
  lock self1 = true -> location self1 ∉ denied w1 ->
  heap w1 !! store self1 = Some v -> Json.dumps v = Some s ->
  with_self body self w =
  Raise e (Self (location self1) (store self1) false) (exited (location self1) s w1) /\
  files (exited (location self1) s w1) !! location self1 = Some s /\
  __exit__ (Some e) self1 w1 = __exit__ None self1 w1.
Proof.
  intros Hl Hb Hl1 Hd Hv Hs. split; [|split].
  - unfold with_self, with_, __enter__, acquire. rewrite Hl.
    fold (entered self). rewrite Hb.
    unfold mbind, M_bind, bind. now rewrite (exit_ok (Some e) _ _ v s).
  - simpl. apply lookup_insert_eq.
  - reflexivity.
Qed.
End scope.

(** C1, as the specification has it, fails: in a block with an empty body
    over a new instance, the first thing after the body is the release of
    the lock, and the file is opened under a later hold. *)
Lemma scope_exit_releases_before_flush :
  exists self' w',
    with_self (mret tt) (Self "db.json" default_store false) (module_loaded ∅ ∅)
    = Return tt self' w' /\
    trace w' = [Acquire; Release; Acquire; Open "db.json" W; Close "db.json"; Release] /\
    flush_precedes_release (drop 1 (trace w')) = false.
Proof. eexists _, _. split; [reflexivity|]. split; reflexivity. Qed.

(** ** The default document *)

(** C3: two instances built without a [default] hold the same object as
    their store, so that a key set through the first is found through the
    second, which a program that had not run the first would not find. *)
Theorem default_document_is_shared (fs : gmap string string) (dn : gset string)
    (p1 p2 k : string) (v : value) :
  p1 ∉ dn -> p2 ∉ dn -> is_json v = true ->
  exists a w1 w2 b w3,
    __init__ p1 None true (module_loaded fs dn) = Return tt a w1 /\
    __setitem__ k v a w1 = Return tt a w2 /\
    __init__ p2 None true w2 = Return tt b w3 /\
    store b = store a /\
    __getitem__ k b w3 = Return v b w3 /\
    files w3 !! p2 = Json.dumps (VDict [(k, v)]) /\
    exists b0 w0,
      __init__ p2 None true (module_loaded fs dn) = Return tt b0 w0 /\
      __getitem__ k b0 w0 = Raise (KeyError k) b0 w0.
Proof.
  intros H1 H2 Hj.
  assert (Hs : Json.dumps (VDict [(k, v)]) = Some (Json.encode (VDict [(k, v)]))).
  { apply JsonFacts.dumps_Some. split; [|reflexivity]. simpl. now rewrite Hj. }
  eexists _, _, _, _, _. split; [|split; [|split; [|split; [|split; [|split]]]]].
  - apply (init_dumps p1 None true _ (VDict []) "{}"); auto.
  - apply (setitem_dict _ _ []). reflexivity.
  - apply (init_dumps p2 None true _ (VDict [(k, v)])); [exact H2 | auto | | exact Hs].
    simpl. apply lookup_insert_eq.
  - reflexivity.
  - rewrite (getitem_dict_at _ _ [(k, v)]).
    + simpl. now rewrite String.eqb_refl.
    + simpl. apply lookup_insert_eq.
  - rewrite Hs. simpl. apply lookup_insert_eq.
  - eexists _, _. split.
    + apply (init_dumps p2 None true _ (VDict []) "{}"); auto.
    + now rewrite (getitem_dict_at _ _ []).
Qed.

(** ** The properties on the script of the module *)

Lemma main_built :
  __init__ Main.path (Some Main.default_dict) true Main.start = Return tt Main.db Main.built.
Proof. reflexivity. Qed.

Lemma scope_exit_releases_then_flushes_witness :
  exists w',
    with_self Main.append_42 Main.db Main.built = Return tt Main.db w' /\
    files w' !! Main.path = Json.dumps (VDict [("list", VList [VInt 42])]).
Proof.
  eexists. split.
  - eapply (scope_exit_releases_then_flushes Main.append_42 Main.db Main.built tt
              (entered Main.db) _ (VDict [("list", VList [VInt 42])])).
    + reflexivity.
    + reflexivity.
    + reflexivity.
    + simpl. apply not_elem_of_empty.
    + reflexivity.
    + reflexivity.
  - reflexivity.
Defined.

Lemma scope_exit_on_error_flushes_witness :
  exists w',
    with_self Main.append_then_raise Main.db Main.built
    = Raise (Exception 0) Main.db w' /\
    files w' !! Main.path = Json.dumps (VDict [("list", VList [VInt 42])]).
Proof.
  eexists. split.
  - eapply (proj1 (scope_exit_on_error_flushes Main.append_then_raise
              Main.db Main.built (Exception 0)
              (entered Main.db) _ (VDict [("list", VList [VInt 42])]) _
              eq_refl eq_refl eq_refl _ eq_refl eq_refl)).
  - reflexivity.
  Unshelve. simpl. apply not_elem_of_empty.
Defined.

Lemma default_document_is_shared_witness :
  exists a w1 w2 b w3,
    __init__ "a.json" None true (module_loaded ∅ ∅) = Return tt a w1 /\
    __setitem__ "k" (VInt 1) a w1 = Return tt a w2 /\
    __init__ "b.json" None true w2 = Return tt b w3 /\
    store b = store a /\
    __getitem__ "k" b w3 = Return (VInt 1) b w3 /\
    files w3 !! "b.json" = Json.dumps (VDict [("k", VInt 1)]) /\
    exists b0 w0,
      __init__ "b.json" None true (module_loaded ∅ ∅) = Return tt b0 w0 /\
      __getitem__ "k" b0 w0 = Raise (KeyError "k") b0 w0.
Proof.
  apply (default_document_is_shared ∅ ∅ "a.json" "b.json" "k" (VInt 1)).
  - apply not_elem_of_empty.
  - apply not_elem_of_empty.
  - reflexivity.
Defined.

Lemma load_failure_keeps_document_witness :
  let w := World (heap Main.built) (<[Main.path := "{oops"]> (files Main.built)) ∅ [] in
  exists w',
    load Main.db w = Raise JSONDecodeError Main.db w' /\
    store Main.db = store Main.db /\ heap w' = heap w /\
    heap w' !! store Main.db = heap w !! store Main.db.
Proof.
  intros w. eexists. split; [reflexivity|].
  apply (load_failure_keeps_document Main.db w JSONDecodeError Main.db). reflexivity.
Defined.

Lemma init_adopts_or_loads_witness :
  let w := World (heap Main.start) {[ "b.json" := "[1, 2]" ]} ∅ [] in
  __init__ "a.json" None false w =
    Return tt (Self "a.json" default_store false) (dumped "a.json" "{}" w) /\
  __init__ "b.json" None false w =
    Return tt (Self "b.json" (fresh (dom (heap w))) false)
              (loaded "b.json" (VList [VInt 1; VInt 2]) w).
Proof.
  intros w. split.
  - exact (proj1 (init_adopts_or_loads "a.json" None false w (not_elem_of_empty _))
             (or_intror eq_refl) (VDict []) "{}" eq_refl eq_refl).
  - exact (proj2 (init_adopts_or_loads "b.json" None false w (not_elem_of_empty _))
             eq_refl "[1, 2]" (VList [VInt 1; VInt 2]) eq_refl eq_refl).
Defined.

Lemma flush_then_construct_roundtrip_witness :
  let v := VDict [("list", VList [VInt 42]); ("dict", VDict [("answer", VInt 42)])] in
  let w := World {[ default_store := v ]} ∅ ∅ [] in
  exists w1 self2 w2,
    dump (Self Main.path default_store false) w
    = Return tt (Self Main.path default_store false) w1 /\
    __init__ Main.path None false w1 = Return tt self2 w2 /\
    heap w2 !! store self2 = Some v.
Proof.
  intros v w.
  apply (flush_then_construct_roundtrip (Self Main.path default_store false) w v None).
  - reflexivity.
  - apply not_elem_of_empty.
  - reflexivity.
  - simpl. repeat split; apply (bool_decide_unpack _); reflexivity.
  - reflexivity.
Defined.

Lemma set_then_get_witness :
  exists w',
    __setitem__ "dict" (VDict [("answer", VInt 42)]) Main.db Main.built
    = Return tt Main.db w' /\
    __getitem__ "dict" Main.db w' = Return (VDict [("answer", VInt 42)]) Main.db w'.
Proof.
  apply (set_then_get Main.db Main.built "dict" (VDict [("answer", VInt 42)])
           [("list", VList [])]).
  reflexivity.
Defined.

Lemma absent_key_raises_witness :
  __getitem__ "dict" Main.db Main.built = Raise (KeyError "dict") Main.db Main.built /\
  __delitem__ "dict" Main.db Main.built = Raise (KeyError "dict") Main.db Main.built.
Proof.
  apply (absent_key_raises Main.db Main.built "dict" [("list", VList [])]).
  - reflexivity.
  - apply (bool_decide_unpack _). reflexivity.
Defined.

Lemma overwrite_replaces_and_flushes_witness :
  let w := World (<[2%nat := VDict []]> (heap Main.built)) (files Main.built) ∅ [] in
  let self' := Self Main.path 2%nat false in
  let w' := dumped Main.path "{}" w in
  overwrite 2%nat Main.db w = Return tt self' w' /\
  heap w' !! 2%nat = Some (VDict []) /\
  files w' !! Main.path = Some "{}" /\
  __len__ self' w' = Return 0%nat self' w' /\ Json.loads "{}" = Some (VDict []).
Proof.
  intros w self' w'.
  destruct (overwrite_replaces_and_flushes Main.db w 2%nat (VDict []) "{}"
              eq_refl (not_elem_of_empty _) eq_refl eq_refl) as (H1 & H2 & H3 & H4).
  destruct (H4 eq_refl) as [H5 H6].
  repeat split; assumption.
Defined.

(** The script runs to its end without an exception, and the file decodes to
    what its assertions expect after the construction, after the [with]
    block, after the [dump] and after the [overwrite]. *)
Lemma main_asserts :
  Main.file_json Main.built = Some (VDict [("list", VList [])]) /\
  Main.file_json (world_of (with_self Main.append_42 Main.db Main.built))
  = Some (VDict [("list", VList [VInt 42])]) /\
  Main.file_json
    (world_of ((with_self Main.append_42 ;;
                __setitem__ "dict" (VDict [("answer", VInt 42)]) ;; dump)
                 Main.db Main.built))
  = Some (VDict [("list", VList [VInt 42]); ("dict", VDict [("answer", VInt 42)])]) /\
  result (Main.script Main.db Main.built) = Some tt /\
  Main.file_json (world_of (Main.script Main.db Main.built)) = Some (VDict []) /\
  result (__len__ (self_of (Main.script Main.db Main.built))
                  (world_of (Main.script Main.db Main.built))) = Some 0%nat.
Proof.
  split; [vm_compute; reflexivity|].
  split; [vm_compute; reflexivity|].
  split; [vm_compute; reflexivity|].
  split; [vm_compute; reflexivity|].
  split; vm_compute; reflexivity.
Qed.

(** * Further properties *)

(** ** Dicts: what [dict_set] and [dict_del] keep *)

Lemma dict_get_Some_keys (k : string) (d : dict) :
  is_Some (dict_get k d) <-> k ∈ keys d.
Proof.
  destruct (dict_get k d) eqn:E.
  - split; [intros _ | eauto].
    destruct (decide (k ∈ keys d)) as [H|H]; [exact H|].
    apply dict_get_None in H. congruence.
  - split; [intros [? [=]] | intros H].
    apply dict_get_None in E. contradiction.
Qed.

Lemma dict_set_keys (k : string) (v : value) (d : dict) :
  keys (dict_set k v d) =
  match dict_get k d with Some _ => keys d | None => (keys d ++ [k])%list end.
Proof.
  unfold keys. induction d as [|[k' v'] d IH]; simpl; [reflexivity|].
  destruct (String.eqb_spec k k') as [->|Hne]; simpl; [reflexivity|].
  rewrite IH. now destruct (dict_get k d).
Qed.

Lemma dict_set_NoDup (k : string) (v : value) (d : dict) :
  NoDup (keys d) -> NoDup (keys (dict_set k v d)).
Proof.
  intros Hnd. rewrite dict_set_keys. destruct (dict_get k d) eqn:E; [exact Hnd|].
  apply dict_get_None in E. apply NoDup_app. split; [exact Hnd|]. split.
  - intros x Hx Hk. apply list_elem_of_singleton in Hk. now subst.
  - apply NoDup_singleton.
Qed.

Lemma dict_set_Forall (P : value -> Prop) (k : string) (v : value) (d : dict) :
  P v -> Forall (fun kv => P (snd kv)) d -> Forall (fun kv => P (snd kv)) (dict_set k v d).
Proof.
  intros Hv. induction d as [|[k' v'] d IH]; simpl; intros Hd.
  - now repeat constructor.
  - apply List.Forall_cons_iff in Hd as [H1 H2].
    destruct (String.eqb k k'); constructor; auto.
Qed.

Lemma dict_get_set_ne (k k' : string) (v : value) (d : dict) :
  k <> k' -> dict_get k' (dict_set k v d) = dict_get k' d.
Proof.
  intros Hne. induction d as [|[k0 v0] d IH]; simpl.
  - destruct (String.eqb_spec k' k); [congruence | reflexivity].
  - destruct (String.eqb_spec k k0) as [->|Hk]; simpl.
    + destruct (String.eqb_spec k' k0); [congruence | reflexivity].
    + now rewrite IH.
Qed.

Lemma dict_set_length (k : string) (v : value) (d : dict) :
  length (dict_set k v d) =
  match dict_get k d with Some _ => length d | None => S (length d) end.
Proof.
  induction d as [|[k' v'] d IH]; simpl; [reflexivity|].
  destruct (String.eqb k k'); simpl; [reflexivity|].
  rewrite IH. now destruct (dict_get k d).
Qed.

Lemma dict_del_Some (k : string) (d : dict) (x : value) :
  dict_get k d = Some x -> exists d', dict_del k d = Some d' /\ S (length d') = length d.
Proof.
  induction d as [|[k' v'] d IH]; simpl; [discriminate|].
  destruct (String.eqb k k'); [eauto|].
  intros H. destruct (IH H) as (d' & -> & Hl). eexists. split; [reflexivity|].
  simpl. now rewrite Hl.
Qed.

Lemma dict_del_get (k : string) (d d' : dict) :
  NoDup (keys d) -> dict_del k d = Some d' -> dict_get k d' = None.
Proof.
  unfold keys. revert d'. induction d as [|[k' v'] d IH]; simpl; intros d' Hnd; [discriminate|].
  apply NoDup_cons in Hnd as [Hk Hnd].
  destruct (String.eqb_spec k k') as [->|Hne].
  - intros [= <-]. now apply dict_get_None.
  - destruct (dict_del k d) as [d''|] eqn:E; [|discriminate].
    intros [= <-]. simpl. destruct (String.eqb_spec k k'); [congruence|]. now apply IH.
Qed.

Lemma dict_del_get_ne (k k' : string) (d d' : dict) :
  k <> k' -> dict_del k d = Some d' -> dict_get k' d' = dict_get k' d.
Proof.
  intros Hne. revert d'. induction d as [|[k0 v0] d IH]; simpl; intros d'; [discriminate|].
  destruct (String.eqb_spec k k0) as [->|Hk].
  - intros [= <-]. destruct (String.eqb_spec k' k0); [congruence | reflexivity].
  - destruct (dict_del k d) as [d''|] eqn:E; [|discriminate].
    intros [= <-]. simpl. now rewrite (IH d'').
Qed.

(** ** What the decoder produces *)

Lemma decoded_list (l : list value) : Forall decoded l -> decoded (VList l).
Proof.
  intros H. split.
  - rewrite JsonFacts.is_json_list. apply forallb_forall. intros x Hx.
    rewrite List.Forall_forall in H. now apply H.
  - apply JsonFacts.wf_list. eapply List.Forall_impl; [|exact H]. now intros x [_ ?].
Qed.

Lemma decoded_dict (d : dict) :
  NoDup (keys d) -> Forall (fun kv => decoded (snd kv)) d -> decoded (VDict d).
Proof.
  intros Hnd H. split.
  - rewrite JsonFacts.is_json_dict. apply forallb_forall. intros x Hx.
    rewrite List.Forall_forall in H. now apply H.
  - apply JsonFacts.wf_dict. split; [exact Hnd|].
    eapply List.Forall_impl; [|exact H]. now intros x [_ ?].
Qed.

Lemma dict_of_pairs_decoded (ps : list (string * value)) :
  Forall (fun kv => decoded (snd kv)) ps -> decoded (VDict (Json.dict_of_pairs ps)).
Proof.
  intros H. unfold Json.dict_of_pairs.
  assert (G : forall acc : dict,
    NoDup (keys acc) -> Forall (fun kv => decoded (snd kv)) acc ->
    let d := fold_left (fun d kv => dict_set (fst kv) (snd kv) d) ps acc in
    NoDup (keys d) /\ Forall (fun kv => decoded (snd kv)) d).
  { induction ps as [|[k v] ps IH]; intros acc Hnd Hacc; simpl; [now split|].
    apply List.Forall_cons_iff in H as [Hv H]. apply (IH H).
    - now apply dict_set_NoDup.
    - now apply dict_set_Forall. }
  destruct (G [] (NoDup_nil_2) (List.Forall_nil _)) as [Hnd Hd].
  now apply decoded_dict.
Qed.

(** Breaks the matches of a decoding step that is known to have succeeded. *)
Ltac break_scan H :=
  repeat match type of H with
         | context [match ?x with _ => _ end] => destruct x eqn:?; try discriminate H
         end.

Lemma scan_decoded (f : nat) :
  (forall s v r, Json.scan_once f s = Some (v, r) -> decoded v) /\
  (forall s vs r, Json.array_items f s = Some (vs, r) -> Forall decoded vs) /\
  (forall s ps r, Json.object_items f s = Some (ps, r) ->
     Forall (fun kv => decoded (snd kv)) ps).
Proof.
  induction f as [|f (IHv & IHa & IHo)]; [repeat split; discriminate|].
  split; [|split].
  - intros s v r H. cbn [Json.scan_once] in H. break_scan H;
      inversion H; subst;
      first [ apply dict_of_pairs_decoded; now eauto
            | apply decoded_list; now eauto
            | split; [reflexivity | simpl; auto using NoDup_nil_2] ].
  - intros s vs r H. cbn [Json.array_items] in H. break_scan H;
      inversion H; subst;
      (apply List.Forall_cons; [now eauto | first [apply List.Forall_nil | now eauto]]).
  - intros s ps r H. cbn [Json.object_items] in H. break_scan H;
      inversion H; subst;
      (apply List.Forall_cons; [simpl; now eauto | first [apply List.Forall_nil | now eauto]]).
Qed.

Lemma loads_decoded (s : string) (v : value) : Json.loads s = Some v -> decoded v.
Proof.
  unfold Json.loads. intros H. break_scan H. inversion H; subst.
  eapply (proj1 (scan_decoded _)); eauto.
Qed.

(** What [json.loads] gave, [json.dumps] takes, and its text decodes to the
    same value. *)
Lemma dumps_loads (s : string) (v : value) :
  Json.loads s = Some v ->
  Json.dumps v = Some (Json.encode v) /\ Json.loads (Json.encode v) = Some v.
Proof.
  intros H. destruct (loads_decoded _ _ H) as [Hj Hwf].
  assert (Hd : Json.dumps v = Some (Json.encode v)) by now apply JsonFacts.dumps_Some.
  split; [exact Hd|]. now apply JsonFacts.loads_dumps.
Qed.

(** ** [dump] and [load]: what they leave alone, and how they fail *)

Lemma load_frame (self : JSONDatabase) (w : world) :
  files (world_of (load self w)) = files w /\
  forall l v, heap w !! l = Some v -> heap (world_of (load self w)) !! l = Some v.
Proof.
  destruct self as [p l0 lk]. run_methods. destruct lk; simpl; [auto|].
  destruct (bool_decide (p ∈ denied w)); simpl; [auto|].
  destruct (files w !! p) as [text|] eqn:Ef; simpl; rewrite ?Ef; simpl; [|auto].
  destruct (Json.loads text) as [v0|]; simpl; [|auto].
  split; [reflexivity|]. intros l v Hl.
  rewrite lookup_insert_ne; [exact Hl|].
  intros <-. apply (is_fresh (dom (heap w))). apply elem_of_dom. eauto.
Qed.

Section persistence_frame.
Variables (self : JSONDatabase) (w : world).

(** X1: [dump] reads the document and never changes it: the objects, the
    store and the path are the same after it, however it ends. *)
Theorem dump_keeps_memory :
  heap (world_of (dump self w)) = heap w /\
  store (self_of (dump self w)) = store self /\
  location (self_of (dump self w)) = location self.
Proof.
  destruct self as [p l lk]. run_methods. destruct lk; simpl; [auto|].
  destruct (bool_decide (p ∈ denied w)); simpl; [auto|].
  destruct (heap w !! l) as [v|]; simpl; [|auto].
  destruct (Json.dump v) as [s [|]]; simpl; auto.
Qed.

(** X8: [load] never writes: the files are the same after it, and so is
    every object that was there, however it ends. *)
Theorem load_keeps_files :
  files (world_of (load self w)) = files w /\
  forall l v, heap w !! l = Some v -> heap (world_of (load self w)) !! l = Some v.
Proof. apply load_frame. Qed.

(** X2: from a free lock, [dump] and [load] end with the lock free and
    every file they opened closed, whether they return or raise. *)
Theorem dump_load_release_lock :
  lock self = false ->
  (lock (self_of (dump self w)) = false /\
   (trace (world_of (dump self w)) = (trace w ++ [Acquire; Release])%list \/
    trace (world_of (dump self w)) =
      (trace w ++ [Acquire; Open (location self) W; Close (location self); Release])%list)) /\
  (lock (self_of (load self w)) = false /\
   (trace (world_of (load self w)) = (trace w ++ [Acquire; Release])%list \/
    trace (world_of (load self w)) =
      (trace w ++ [Acquire; Open (location self) R; Close (location self); Release])%list)).
Proof.
  intros Hl. destruct self as [p l lk]. simpl in Hl. subst lk. split.
  - run_methods. destruct (bool_decide (p ∈ denied w)); simpl.
    { split; [reflexivity|]. left. now rewrite <- app_assoc. }
    destruct (heap w !! l) as [v|]; simpl.
    2: { split; [reflexivity|]. right. now rewrite <- !app_assoc. }
    destruct (Json.dump v) as [s [|]]; simpl;
      (split; [reflexivity|]; right; now rewrite <- !app_assoc).
  - run_methods. destruct (bool_decide (p ∈ denied w)); simpl.
    { split; [reflexivity|]. left. now rewrite <- app_assoc. }
    destruct (files w !! p) as [text|] eqn:Ef; simpl; rewrite ?Ef; simpl.
    2: { split; [reflexivity|]. left. now rewrite <- app_assoc. }
    destruct (Json.loads text) as [v0|]; simpl;
      (split; [reflexivity|]; right; now rewrite <- !app_assoc).
Qed.

(** X3: while the lock is held, as it is inside a [with] block on the
    instance, [dump], [load] and a second [with] block wait for ever; so
    does [overwrite], after it has replaced the store. *)
Theorem held_lock_blocks {A : Type} (body : M A) (D : loc) :
  lock self = true ->
  dump self w = Blocked self w /\
  load self w = Blocked self w /\
  with_self body self w = Blocked self w /\
  overwrite D self w = Blocked (Self (location self) D true) w.
Proof.
  intros Hl. destruct self as [p l lk]. simpl in Hl. subst lk.
  repeat split; reflexivity.
Qed.


(** X5: on a document that holds an object outside the JSON types, [dump]
    raises [TypeError] after it has emptied the file and written the text
    that comes before the object: the former text of the file is gone. *)
Theorem dump_not_serializable (v : value) :
  lock self = false -> location self ∉ denied w ->
  heap w !! store self = Some v -> is_json v = false ->
  dump self w = Raise TypeError self (dumped (location self) (fst (Json.dump v)) w).
Proof.
  intros Hl Hd Hv Hj. rewrite (dump_free self w v Hl Hd Hv).
  destruct (Json.dump v) as [s [|]] eqn:E; [|reflexivity].
  apply JsonFacts.dump_ok_is_json in E. congruence.
Qed.

(** X7: a second [dump] right after a [dump] leaves the files as the first
    one left them. *)
Theorem dump_twice :
  files (world_of ((dump ;; dump) self w)) = files (world_of (dump self w)).
Proof.
  unfold mbind, M_bind, bind.
  destruct (dump self w) as [[] self1 w1|e self1 w1|self1 w1] eqn:E; try reflexivity.
  destruct self as [p l lk].
  assert (lk = false) as ->.
  { destruct lk; [|reflexivity]. now rewrite dump_held in E. }
  destruct (decide (p ∈ denied w)) as [Hd|Hd].
  { exfalso. revert E. run_methods. now rewrite bool_decide_eq_true_2 by exact Hd. }
  destruct (heap w !! l) as [v|] eqn:Hv.
  2: { exfalso. revert E. run_methods.
       rewrite bool_decide_eq_false_2 by exact Hd. simpl. now rewrite Hv. }
  rewrite (dump_free (Self p l false) w v eq_refl Hd Hv) in E.
  destruct (Json.dump v) as [s [|]] eqn:Es; simpl in E; [|discriminate].
  inversion E; subst self1 w1.
  rewrite (dump_free (Self p l false) (dumped p s w) v eq_refl Hd Hv). rewrite Es. simpl.
  apply insert_insert_eq.
Qed.
End persistence_frame.

(** ** The [with] block on a document that cannot be written *)

Lemma exit_type_error (exc : option exn) (self : JSONDatabase) (w : world) (v : value) :
  lock self = true -> location self ∉ denied w ->
  heap w !! store self = Some v -> is_json v = false ->
  __exit__ exc self w =
  Raise TypeError (Self (location self) (store self) false)
        (exited (location self) (fst (Json.dump v)) w).
Proof.
  intros Hl Hd Hv Hj.
  unfold __exit__, mbind, M_bind, bind, release. rewrite Hl.
  rewrite (dump_free _ _ v); try assumption; try reflexivity.
  destruct (Json.dump v) as [s [|]] eqn:E.
  - apply JsonFacts.dump_ok_is_json in E. congruence.
  - simpl. unfold dumped, exited, log. simpl. now rewrite <- app_assoc.
Qed.

(** X6: when the document holds an object outside the JSON types at the end
    of a [with] block, the block raises [TypeError] from its [__exit__],
    whether its body returned or raised (the exception of the body is
    lost); the file is left with the text before the object, and the lock
    is free. *)
Theorem scope_exit_type_error {A : Type} (body : M A) (self : JSONDatabase) (w : world)
    (a : A) (e : exn) (self1 : JSONDatabase) (w1 : world) (v : value) :
  lock self = false ->
  body (entered self) (log Acquire w) = Return a self1 w1 \/
  body (entered self) (log Acquire w) = Raise e self1 w1 ->
  lock self1 = true -> location self1 ∉ denied w1 ->
  heap w1 !! store self1 = Some v -> is_json v = false ->
  with_self body self w =
  Raise TypeError (Self (location self1) (store self1) false)
        (exited (location self1) (fst (Json.dump v)) w1).
Proof.
  intros Hl Hb Hl1 Hd Hv Hj.
  unfold with_self, with_, __enter__, acquire. rewrite Hl. fold (entered self).
  destruct Hb as [-> | ->]; unfold mbind, M_bind, bind;
    now rewrite (exit_type_error _ _ _ v).
Qed.

(** ** Construction over a file that is there *)

(** X9: without [overwrite], [__init__] over a path where a file is leaves
    every file as it is, whether the file decodes or not. *)
Theorem init_keeps_existing_file (p : string) (default : option loc) (w : world)
    (text : string) :
  files w !! p = Some text ->
  files (world_of (__init__ p default false w)) = files w.
Proof.
  intros Hf. unfold __init__. rewrite (path_exists_Some _ _ _ Hf). simpl.
  apply load_frame.
Qed.

(** X10: an instance that was built from its file holds an object of its
    own, also when the [default] argument was left out: a key set through
    it leaves the shared default dict as it was. *)
Theorem loaded_instance_does_not_share (p : string) (w : world) (text : string)
    (d : dict) (k : string) (v : value) :
  p ∉ denied w -> files w !! p = Some text -> Json.loads text = Some (VDict d) ->
  is_Some (heap w !! default_store) ->
  exists a w1 w2,
    __init__ p None false w = Return tt a w1 /\
    store a <> default_store /\
    __setitem__ k v a w1 = Return tt a w2 /\
    __getitem__ k a w2 = Return v a w2 /\
    heap w2 !! default_store = heap w !! default_store.
Proof.
  intros Hd Hf Hv Hs.
  assert (Hne : fresh (dom (heap w)) <> default_store).
  { intros E. apply (is_fresh (dom (heap w))). rewrite E. now apply elem_of_dom. }
  eexists _, _, _. split; [now apply (init_loads p None w text (VDict d))|].
  split; [exact Hne|]. split; [|split].
  - apply (setitem_dict _ _ d). simpl. apply lookup_insert_eq.
  - rewrite (getitem_dict_at _ _ (dict_set k v d)).
    + now rewrite dict_get_set.
    + simpl. apply lookup_insert_eq.
  - simpl. now rewrite !lookup_insert_ne by exact Hne.
Qed.

(** X11: a file that [load] accepts can always be written back and read
    again: [load], [dump], [load] in a row return, and end with the same
    document in the store. *)
Theorem load_dump_load (self : JSONDatabase) (w : world) (text : string) (v : value) :
  lock self = false -> location self ∉ denied w ->
  files w !! location self = Some text -> Json.loads text = Some v ->
  exists self' w',
    (load ;; dump ;; load) self w = Return tt self' w' /\
    heap w' !! store self' = Some v /\
    files w' !! location self = Json.dumps v.
Proof.
  intros Hl Hd Hf Hv. destruct (dumps_loads _ _ Hv) as [Hs Hr].
  eexists _, _. split; [|split].
  - unfold mbind, M_bind, bind.
    rewrite (load_ok self w text v Hl Hd Hf Hv).
    rewrite (dump_ok _ _ v (Json.encode v)); try assumption; try reflexivity.
    2: { simpl. apply lookup_insert_eq. }
    apply (load_ok _ _ (Json.encode v) v); try assumption; try reflexivity.
    simpl. apply lookup_insert_eq.
  - simpl. apply lookup_insert_eq.
  - rewrite Hs. simpl. apply lookup_insert_eq.
Qed.

(** ** The mapping operations together *)

Lemma len_dict (self : JSONDatabase) (w : world) (d : dict) :
  heap w !! store self = Some (VDict d) ->
  __len__ self w = Return (length d) self w.
Proof. intros H. run_methods. now rewrite H. Qed.

Lemma iter_dict (self : JSONDatabase) (w : world) (d : dict) :
  heap w !! store self = Some (VDict d) ->
  __iter__ self w = Return (map (fun kv => VStr (fst kv)) d) self w.
Proof.
  intros H. unfold __iter__, mbind, M_bind, bind, get_store, deref. simpl. now rewrite H.
Qed.

Lemma iter_keys (d : dict) : map (fun kv => VStr (fst kv)) d = map VStr (keys d).
Proof. unfold keys. now rewrite List.map_map. Qed.

Lemma elem_of_map_VStr (k : string) (ks : list string) : VStr k ∈ map VStr ks <-> k ∈ ks.
Proof.
  induction ks as [|k' ks IH]; simpl.
  - split; intros H; now apply elem_of_nil in H.
  - rewrite !elem_of_cons, IH. split; intros [H|H]; auto; left; congruence.
Qed.

Lemma NoDup_map_VStr (ks : list string) : NoDup ks -> NoDup (map VStr ks).
Proof.
  induction 1 as [|k ks Hk Hnd IH]; simpl; constructor; [|exact IH].
  now rewrite elem_of_map_VStr.
Qed.

Section mapping_together.
Variables (self : JSONDatabase) (w : world) (d : dict).
Hypothesis Hstore : heap w !! store self = Some (VDict d).

Lemma updated_store (d' : dict) :
  heap (assigned (store self) (VDict d') w) !! store self = Some (VDict d').
Proof. simpl. apply lookup_insert_eq. Qed.

(** X16: on a dict, [__iter__] yields the keys: as many as [__len__]
    counts, and just those under which [__getitem__] finds a value; no key
    comes twice. *)
Theorem iter_lists_keys :
  exists ks,
    __iter__ self w = Return (map VStr ks) self w /\
    __len__ self w = Return (length ks) self w /\
    (forall k, k ∈ ks <-> exists x, __getitem__ k self w = Return x self w) /\
    (NoDup (keys d) -> NoDup (map VStr ks)).
Proof.
  exists (keys d). split; [|split; [|split]].
  - rewrite (iter_dict _ _ d Hstore). now rewrite iter_keys.
  - rewrite (len_dict _ _ d Hstore). unfold keys. now rewrite length_map.
  - intros k. rewrite <- dict_get_Some_keys, (getitem_dict_at _ _ d k Hstore).
    destruct (dict_get k d) as [x|]; split.
    + eauto.
    + eauto.
    + intros [? [=]].
    + intros [? [=]].
  - apply NoDup_map_VStr.
Qed.

(** X12: [__setitem__] under one key changes nothing under another:
    [__getitem__] returns or raises there as it did. *)
Theorem set_keeps_other_keys (k k' : string) (v : value) :
  k <> k' ->
  exists w',
    __setitem__ k v self w = Return tt self w' /\
    result (__getitem__ k' self w') = result (__getitem__ k' self w) /\
    raised (__getitem__ k' self w') = raised (__getitem__ k' self w).
Proof.
  intros Hne. exists (assigned (store self) (VDict (dict_set k v d)) w).
  split; [now apply setitem_dict|].
  rewrite (getitem_dict_at _ _ _ k' (updated_store _)), (getitem_dict_at _ _ d k' Hstore).
  rewrite (dict_get_set_ne _ _ _ _ Hne). now destruct (dict_get k' d).
Qed.

(** X13: [__delitem__] on a key that is there returns; after it the key
    is gone, the other keys answer as before, and the length is one less. *)
Theorem delete_then_get (k : string) :
  NoDup (keys d) -> k ∈ keys d ->
  exists w',
    __delitem__ k self w = Return tt self w' /\
    __getitem__ k self w' = Raise (KeyError k) self w' /\
    (forall k', k' <> k ->
       result (__getitem__ k' self w') = result (__getitem__ k' self w)) /\
    result (__len__ self w) = option_map S (result (__len__ self w')).
Proof.
  intros Hnd Hk. apply dict_get_Some_keys in Hk as [x Hx].
  destruct (dict_del_Some _ _ _ Hx) as (d' & Hdel & Hlen).
  exists (assigned (store self) (VDict d') w). split; [|split; [|split]].
  - rewrite (delitem_dict _ _ d k Hstore). now rewrite Hdel.
  - rewrite (getitem_dict_at _ _ _ k (updated_store _)).
    now rewrite (dict_del_get _ _ _ Hnd Hdel).
  - intros k' Hne.
    rewrite (getitem_dict_at _ _ _ k' (updated_store _)), (getitem_dict_at _ _ d k' Hstore).
    rewrite (dict_del_get_ne k k' d d') by auto. now destruct (dict_get k' d).
  - rewrite (len_dict _ _ d Hstore), (len_dict _ _ _ (updated_store d')). simpl.
    now rewrite Hlen.
Qed.

(** X14: [__setitem__] under a new key puts the key last in the order of
    iteration and makes the dict one longer. *)
Theorem set_new_key_goes_last (k : string) (v : value) :
  k ∉ keys d ->
  exists w' ks,
    __setitem__ k v self w = Return tt self w' /\
    __iter__ self w = Return ks self w /\
    __iter__ self w' = Return (ks ++ [VStr k])%list self w' /\
    __len__ self w' = Return (S (length ks)) self w'.
Proof.
  intros Hk. apply dict_get_None in Hk.
  exists (assigned (store self) (VDict (dict_set k v d)) w), (map VStr (keys d)).
  split; [now apply setitem_dict|]. split; [|split].
  - rewrite (iter_dict _ _ d Hstore). now rewrite iter_keys.
  - rewrite (iter_dict _ _ _ (updated_store _)), iter_keys, dict_set_keys, Hk.
    now rewrite List.map_app.
  - rewrite (len_dict _ _ _ (updated_store _)), dict_set_length, Hk.
    unfold keys. now rewrite !length_map.
Qed.

(** X15: [__setitem__] under a key that is there replaces the value where
    it is: the order of iteration and the length stay. *)
Theorem set_present_key_keeps_order (k : string) (v : value) :
  k ∈ keys d ->
  exists w' ks,
    __setitem__ k v self w = Return tt self w' /\
    __iter__ self w = Return ks self w /\
    __iter__ self w' = Return ks self w' /\
    __len__ self w' = Return (length ks) self w'.
Proof.
  intros Hk. apply dict_get_Some_keys in Hk as [x Hx].
  exists (assigned (store self) (VDict (dict_set k v d)) w), (map VStr (keys d)).
  split; [now apply setitem_dict|]. split; [|split].
  - rewrite (iter_dict _ _ d Hstore). now rewrite iter_keys.
  - rewrite (iter_dict _ _ _ (updated_store _)), iter_keys, dict_set_keys. now rewrite Hx.
  - rewrite (len_dict _ _ _ (updated_store _)), dict_set_length, Hx.
    unfold keys. now rewrite !length_map.
Qed.
End mapping_together.

(** ** A value set, dumped and read by a new instance *)

Lemma decoded_dict_inv (d : dict) :
  decoded (VDict d) -> NoDup (keys d) /\ Forall (fun kv => decoded (snd kv)) d.
Proof.
  intros [Hj Hwf]. rewrite JsonFacts.is_json_dict in Hj.
  apply JsonFacts.wf_dict in Hwf as [Hnd Hwf]. split; [exact Hnd|].
  rewrite forallb_forall in Hj. rewrite List.Forall_forall in *.
  intros x Hx. split; auto.
Qed.

(** X17: a value of the JSON types that is set under a key and dumped is
    the value a new instance over the same path finds under that key. *)
Theorem set_dump_reload (self : JSONDatabase) (w : world) (d : dict) (k : string)
    (v : value) (default : option loc) :
  lock self = false -> location self ∉ denied w ->
  heap w !! store self = Some (VDict d) -> decoded (VDict d) -> decoded v ->
  exists w1 b w2,
    (__setitem__ k v ;; dump) self w = Return tt self w1 /\
    __init__ (location self) default false w1 = Return tt b w2 /\
    __getitem__ k b w2 = Return v b w2.
Proof.
  intros Hl Hd Hs Hdoc Hv.
  destruct (decoded_dict_inv _ Hdoc) as [Hnd Hall].
  assert (Hnew : decoded (VDict (dict_set k v d))).
  { apply decoded_dict; [now apply dict_set_NoDup | now apply dict_set_Forall]. }
  destruct Hnew as [Hj Hwf].
  assert (Henc : Json.dumps (VDict (dict_set k v d)) = Some (Json.encode (VDict (dict_set k v d))))
    by now apply JsonFacts.dumps_Some.
  eexists _, _, _. split; [|split].
  - unfold mbind, M_bind, bind. rewrite (setitem_dict _ _ d k v Hs).
    apply (dump_ok _ _ (VDict (dict_set k v d)) (Json.encode (VDict (dict_set k v d))));
      [exact Hl | exact Hd | simpl; apply lookup_insert_eq | exact Henc].
  - apply (init_loads _ _ _ (Json.encode (VDict (dict_set k v d))) (VDict (dict_set k v d)));
      [exact Hd | simpl; apply lookup_insert_eq |].
    now apply JsonFacts.loads_dumps.
  - rewrite (getitem_dict_at _ _ (dict_set k v d)).
    + now rewrite dict_get_set.
    + simpl. apply lookup_insert_eq.
Qed.

(** ** The further properties on the script of the module *)

Lemma main_store : heap Main.built !! store Main.db = Some (VDict [("list", VList [])]).
Proof. reflexivity. Qed.

Lemma dump_load_release_lock_witness :
  lock (self_of (dump Main.db Main.built)) = false /\
  lock (self_of (load Main.db Main.built)) = false.
Proof.
  destruct (dump_load_release_lock Main.db Main.built eq_refl) as [[H1 _] [H2 _]].
  split; assumption.
Defined.

Lemma held_lock_blocks_witness :
  with_self Main.append_42 (entered Main.db) Main.built
  = Blocked (entered Main.db) Main.built.
Proof.
  exact (proj1 (proj2 (proj2
    (held_lock_blocks (entered Main.db) Main.built Main.append_42 default_store eq_refl)))).
Defined.


Lemma dump_not_serializable_witness :
  let v := VDict [("a", VInt 1); ("x", VObject 0)] in
  let w := World {[ default_store := v ]} {[ Main.path := "[]" ]} ∅ [] in
  let self := Self Main.path default_store false in
  dump self w = Raise TypeError self (dumped Main.path (fst (Json.dump v)) w).
Proof.
  intros v w self.
  apply (dump_not_serializable self w v); [reflexivity | apply not_elem_of_empty | reflexivity..].
Defined.

Lemma scope_exit_type_error_witness :
  raised (with_self (__setitem__ "x" (VObject 0)) Main.db Main.built) = Some TypeError.
Proof.
  erewrite (scope_exit_type_error (__setitem__ "x" (VObject 0)) Main.db Main.built tt
              (Exception 0) (entered Main.db) _
              (VDict [("list", VList []); ("x", VObject 0)]) eq_refl (or_introl eq_refl)
              eq_refl (not_elem_of_empty _) eq_refl eq_refl).
  reflexivity.
Defined.

Lemma init_keeps_existing_file_witness :
  files (world_of (__init__ Main.path None false Main.built)) = files Main.built.
Proof. eapply init_keeps_existing_file. reflexivity. Defined.

Lemma loaded_instance_does_not_share_witness :
  exists a w1 w2,
    __init__ Main.path None false Main.built = Return tt a w1 /\
    store a <> default_store /\
    __setitem__ "k" (VInt 1) a w1 = Return tt a w2 /\
    __getitem__ "k" a w2 = Return (VInt 1) a w2 /\
    heap w2 !! default_store = heap Main.built !! default_store.
Proof.
  eapply (loaded_instance_does_not_share Main.path Main.built _ [("list", VList [])]).
  - apply not_elem_of_empty.
  - reflexivity.
  - vm_compute. reflexivity.
  - eexists. reflexivity.
Defined.

Lemma load_dump_load_witness :
  exists self' w',
    (load ;; dump ;; load) Main.db Main.built = Return tt self' w' /\
    heap w' !! store self' = Some (VDict [("list", VList [])]) /\
    files w' !! Main.path = Json.dumps (VDict [("list", VList [])]).
Proof.
  eapply (load_dump_load Main.db Main.built _ (VDict [("list", VList [])])).
  - reflexivity.
  - apply not_elem_of_empty.
  - reflexivity.
  - vm_compute. reflexivity.
Defined.

Lemma iter_lists_keys_witness :
  exists ks,
    __iter__ Main.db Main.built = Return (map VStr ks) Main.db Main.built /\
    __len__ Main.db Main.built = Return (length ks) Main.db Main.built /\
    (forall k, k ∈ ks <-> exists x, __getitem__ k Main.db Main.built
                                    = Return x Main.db Main.built) /\
    (NoDup (keys [("list", VList [])]) -> NoDup (map VStr ks)).
Proof. exact (iter_lists_keys Main.db Main.built _ main_store). Defined.

Lemma set_keeps_other_keys_witness :
  exists w',
    __setitem__ "dict" (VInt 1) Main.db Main.built = Return tt Main.db w' /\
    result (__getitem__ "list" Main.db w') = result (__getitem__ "list" Main.db Main.built) /\
    raised (__getitem__ "list" Main.db w') = raised (__getitem__ "list" Main.db Main.built).
Proof.
  apply (set_keeps_other_keys Main.db Main.built _ main_store "dict" "list" (VInt 1)).
  discriminate.
Defined.

Lemma delete_then_get_witness :
  exists w',
    __delitem__ "list" Main.db Main.built = Return tt Main.db w' /\
    __getitem__ "list" Main.db w' = Raise (KeyError "list") Main.db w' /\
    (forall k', k' <> "list" ->
       result (__getitem__ k' Main.db w') = result (__getitem__ k' Main.db Main.built)) /\
    result (__len__ Main.db Main.built) = option_map S (result (__len__ Main.db w')).
Proof.
  apply (delete_then_get Main.db Main.built _ main_store "list").
  - apply (bool_decide_unpack _). reflexivity.
  - apply (bool_decide_unpack _). reflexivity.
Defined.

Lemma set_new_key_goes_last_witness :
  exists w' ks,
    __setitem__ "dict" (VInt 1) Main.db Main.built = Return tt Main.db w' /\
    __iter__ Main.db Main.built = Return ks Main.db Main.built /\
    __iter__ Main.db w' = Return (ks ++ [VStr "dict"])%list Main.db w' /\
    __len__ Main.db w' = Return (S (length ks)) Main.db w'.
Proof.
  apply (set_new_key_goes_last Main.db Main.built _ main_store "dict" (VInt 1)).
  apply (bool_decide_unpack _). reflexivity.
Defined.

Lemma set_present_key_keeps_order_witness :
  exists w' ks,
    __setitem__ "list" (VInt 1) Main.db Main.built = Return tt Main.db w' /\
    __iter__ Main.db Main.built = Return ks Main.db Main.built /\
    __iter__ Main.db w' = Return ks Main.db w' /\
    __len__ Main.db w' = Return (length ks) Main.db w'.
Proof.
  apply (set_present_key_keeps_order Main.db Main.built _ main_store "list" (VInt 1)).
  apply (bool_decide_unpack _). reflexivity.
Defined.

Lemma set_dump_reload_witness :
  exists w1 b w2,
    (__setitem__ "dict" (VDict [("answer", VInt 42)]) ;; dump) Main.db Main.built
    = Return tt Main.db w1 /\
    __init__ Main.path None false w1 = Return tt b w2 /\
    __getitem__ "dict" b w2 = Return (VDict [("answer", VInt 42)]) b w2.
Proof.
  apply (set_dump_reload Main.db Main.built [("list", VList [])] "dict"
           (VDict [("answer", VInt 42)]) None).
  - reflexivity.
  - apply not_elem_of_empty.
  - reflexivity.
  - split; [reflexivity|]. simpl. repeat split. apply (bool_decide_unpack _). reflexivity.
  - split; [reflexivity|]. simpl. repeat split. apply (bool_decide_unpack _). reflexivity.
Defined.
